(** * HXRSnD calibration plans: a shallow embedding of
    [hxrsnd/plans/calibration.py] and the properties of its four plans.

    Numbers are exact rationals ([Qc]); Python strings are [string];
    a pandas DataFrame is an index and an ordered list of labelled columns;
    a bluesky plan is a finite tree of requests to the run engine. *)

From Stdlib Require Import String Ascii List Bool Arith Lia QArith Qcanon Qcabs.
From stdpp Require Import base list strings gmap.
Import ListNotations.

Local Open Scope string_scope.
Local Open Scope list_scope.

(** ** Python exceptions and fallible results *)

Inductive exn : Type :=
| NameError
| TypeError
| ValueError
| IndexError
| KeyError
| ZeroDivisionError
| RuntimeError
| LimitError
| OtherError (tag : string).

Definition result (A : Type) : Type := (exn + A)%type.

Definition ok {A} (a : A) : result A := inr a.
Definition raise {A} (e : exn) : result A := inl e.

Definition rbind {A B} (r : result A) (f : A -> result B) : result B :=
  match r with
  | inl e => inl e
  | inr a => f a
  end.

Notation "x <-r r ;; k" := (rbind r (fun x => k))
  (at level 100, r at next level, right associativity).

(** ** Python string operations used on column labels *)

Module PyStr.

(** [sub in s] *)
Fixpoint contains (sub s : string) : bool :=
  String.prefix sub s ||
  match s with
  | EmptyString => false
  | String _ s' => contains sub s'
  end.

(** [s.endswith(suf)] *)
Fixpoint endswith (s suf : string) : bool :=
  String.eqb s suf ||
  match s with
  | EmptyString => false
  | String _ s' => endswith s' suf
  end.

(** [s[:-4]] *)
Definition drop_last4 (s : string) : string :=
  String.substring 0 (String.length s - 4) s.

(** [c.lower()] on one ASCII character *)
Definition lower_ascii (c : ascii) : ascii :=
  let n := nat_of_ascii c in
  if (65 <=? n)%nat && (n <=? 90)%nat then ascii_of_nat (n + 32) else c.

(** [s.lower()] *)
Fixpoint lower (s : string) : string :=
  match s with
  | EmptyString => EmptyString
  | String c s' => String (lower_ascii c) (lower s')
  end.

End PyStr.

(** ** DataFrames *)

Definition Series : Type := list Qc.

Record DataFrame : Type := mkDF {
  df_index : list Qc;
  df_cols : list (string * Series)
}.

Module DF.

(** [df.columns] *)
Definition columns (df : DataFrame) : list string := map fst (df_cols df).

Fixpoint assoc (c : string) (cols : list (string * Series)) : option Series :=
  match cols with
  | [] => None
  | (c', s) :: rest => if String.eqb c c' then Some s else assoc c rest
  end.

(** [df[c]]: the column labelled [c], [KeyError] when there is none *)
Definition getitem (df : DataFrame) (c : string) : result Series :=
  match assoc c (df_cols df) with
  | Some s => ok s
  | None => raise KeyError
  end.

(** [s.iloc[i]] *)
Definition iloc (s : Series) (i : nat) : result Qc :=
  match nth_error s i with
  | Some x => ok x
  | None => raise IndexError
  end.

Fixpoint set_assoc (c : string) (s : Series) (cols : list (string * Series))
  : list (string * Series) :=
  match cols with
  | [] => [(c, s)]
  | (c', s') :: rest =>
      if String.eqb c c' then (c', s) :: rest
      else (c', s') :: set_assoc c s rest
  end.

(** [df[c] = s]: overwrite the column labelled [c] or append a new one *)
Definition setitem (df : DataFrame) (c : string) (s : Series) : DataFrame :=
  mkDF (df_index df) (set_assoc c s (df_cols df)).

(** [pd.DataFrame(index=idx)] *)
Definition empty (idx : list Qc) : DataFrame := mkDF idx [].

(** [df[labels]]: a new frame with the listed columns, in the listed order *)
Fixpoint select_cols (df : DataFrame) (labels : list string)
  : result (list (string * Series)) :=
  match labels with
  | [] => ok []
  | c :: rest =>
      s <-r getitem df c ;;
      tl <-r select_cols df rest ;;
      ok ((c, s) :: tl)
  end.

Definition select (df : DataFrame) (labels : list string) : result DataFrame :=
  cs <-r select_cols df labels ;;
  ok (mkDF (df_index df) cs).

(** [pd.concat([a, b], axis=1)] of two frames over the same index *)
Definition concat_cols (a b : DataFrame) : DataFrame :=
  mkDF (df_index a) (df_cols a ++ df_cols b).

(** elementwise series arithmetic *)
Definition sub_scalar (s : Series) (x : Qc) : Series := map (fun v => (v - x)%Qc) s.
Definition mul_scalar (s : Series) (x : Qc) : Series := map (fun v => (v * x)%Qc) s.
Definition rsub_scalar (x : Qc) (s : Series) : Series := map (fun v => (x - v)%Qc) s.
Definition abs (s : Series) : Series := map Qcabs s.

Fixpoint sub (a b : Series) : Series :=
  match a, b with
  | x :: a', y :: b' => (x - y)%Qc :: sub a' b'
  | _, _ => []
  end.

(** [df.iloc[i][c]]: row [i], then the entry labelled [c] *)
Definition iloc_at (df : DataFrame) (i : nat) (c : string) : result Qc :=
  if (i <? length (df_index df))%nat then
    s <-r getitem df c ;; iloc s i
  else raise IndexError.

End DF.

(** ** Devices *)

Record Detector : Type := mkDetector { det_name : string }.

Record Motor : Type := mkMotor {
  mot_id : nat;
  mot_name : string;
  mot_desc : string
}.

(** ** Column discovery shared by [detector_scaling_walk] and
    [build_calibration_df] (lines 332-333 and 443-446) *)

Definition is_pre (col : string) : bool := PyStr.endswith col "_pre".

Definition mem_str (x : string) (l : list string) : bool :=
  existsb (String.eqb x) l.

(** [[col for col in df_scan.columns if detector.name in col]] *)
Definition discover_detector_fields (df_scan : DataFrame) (detector : Detector)
  : list string :=
  List.filter (fun col => PyStr.contains (det_name detector) col) (DF.columns df_scan).

(** [[col[:-4] for col in df_scan.columns if col.endswith("_pre")]] *)
Definition discover_calib_fields (df_scan : DataFrame) : list string :=
  map PyStr.drop_last4 (List.filter is_pre (DF.columns df_scan)).

(** [[col for col in df_scan.columns
      if col not in detector_fields and not col.endswith("_pre")]] *)
Definition discover_motor_fields (df_scan : DataFrame) (detector_fields : list string)
  : list string :=
  List.filter (fun col => negb (mem_str col detector_fields) && negb (is_pre col))
              (DF.columns df_scan).

(** ** [build_calibration_df] (lines 412-469) *)

(** [zip(scaling, start_positions, calib_fields, detector_fields)]: stops at
    the shortest of the four lists. *)
Fixpoint zip4 {A B C D} (a : list A) (b : list B) (c : list C) (d : list D)
  : list (A * B * C * D) :=
  match a, b, c, d with
  | x :: a', y :: b', z :: c', w :: d' => (x, y, z, w) :: zip4 a' b' c' d'
  | _, _, _, _ => []
  end.

(** the absolute correction series of line 461 *)
Definition abs_correction (start scale : Qc) (d : Series) (d0 : Qc) : Series :=
  DF.rsub_scalar start (DF.mul_scalar (DF.sub_scalar d d0) scale).

(** one iteration of the loop of lines 457-464 *)
Definition correction_step (df_scan : DataFrame) (df_corrections : DataFrame)
  (ch : Qc * Qc * string * string) : result DataFrame :=
  let '(scale, start, cfld, dfld) := ch in
  d <-r DF.getitem df_scan dfld ;;
  d0 <-r DF.iloc d 0 ;;
  let df1 := DF.setitem df_corrections (cfld ++ "_post_abs")
               (abs_correction start scale d d0) in
  a <-r DF.getitem df1 (cfld ++ "_post_abs") ;;
  pre <-r DF.getitem df_scan (cfld ++ "_pre") ;;
  ok (DF.setitem df1 (cfld ++ "_post_rel") (DF.sub a pre)).

Fixpoint correction_loop (df_scan : DataFrame) (df_corrections : DataFrame)
  (chs : list (Qc * Qc * string * string)) : result DataFrame :=
  match chs with
  | [] => ok df_corrections
  | ch :: rest =>
      df1 <-r correction_step df_scan df_corrections ch ;;
      correction_loop df_scan df1 rest
  end.

Definition build_calibration_df (df_scan : DataFrame) (scaling start_positions : list Qc)
  (detector : Detector) : result DataFrame :=
  let detector_fields := discover_detector_fields df_scan detector in
  let calib_fields := discover_calib_fields df_scan in
  let motor_fields := discover_motor_fields df_scan detector_fields in
  if negb (length detector_fields =? length calib_fields)%nat then raise ValueError
  else
    df_corrections <-r
      correction_loop df_scan (DF.empty (df_index df_scan))
        (zip4 scaling start_positions calib_fields detector_fields) ;;
    df_motor <-r DF.select df_scan motor_fields ;;
    ok (DF.concat_cols df_motor df_corrections).

(** ** Small tables used in the examples *)

Definition qz (z : Z) : Qc := Q2Qc (inject_Z z).

Definition ex_detector : Detector := mkDetector "det".

Definition ex_scan : DataFrame :=
  mkDF (map qz [0; 1; 2]%Z)
    [ ("det_x", map qz [10; 12; 15]%Z);
      ("det_y", map qz [7; 7; 9]%Z);
      ("delay", map qz [0; 1; 2]%Z);
      ("m1_pre", map qz [100; 101; 102]%Z);
      ("m2_pre", map qz [50; 50; 50]%Z) ].

(** ** Plans: what a generator asks of the run engine

    A plan either returns, raises, queues a message ([Emit]: [abs_set],
    [wait], a log record) or delegates to a collaborator and resumes with
    its answer ([Call]); the collaborator may answer with a value or throw
    an exception into the generator. *)

(** loosely typed extra arguments ([*args], [**kwargs], [filters]) *)
Inductive PyObj : Type :=
| PyNone
| PyBool (b : bool)
| PyNum (q : Qc)
| PyStr (s : string)
| PyStrs (l : list string)
| PyOpaque (tag : string).

Inductive device : Type :=
| DevDetector (d : Detector)
| DevMotor (m : Motor).

Inductive level : Type := Debug | Info | Warning.

Inductive msg : Type :=
| AbsSet (m : Motor) (pos : Qc) (group : string)
| Wait (group : string)
| Log (lvl : level) (text : string).

(** the truth values read at line 31 *)
Record MotorConfig : Type := mkConfig {
  cfg_calib : bool;
  cfg_motors : bool
}.

Record ScanArgs : Type := mkScanArgs {
  sc_detector : Detector;
  sc_motor : Motor;
  sc_start : Qc;
  sc_stop : Qc;
  sc_steps : nat;
  sc_system : list Motor;
  sc_system_fields : list string;
  sc_return_to_start : list PyObj;
  sc_kwargs : list (string * PyObj)
}.

Record WalkArgs : Type := mkWalkArgs {
  w_detector : Detector;
  w_motor : Motor;
  w_target : Qc;
  w_filters : PyObj;
  w_gradient : option Qc;
  w_target_fields : list string;
  w_first_step : Qc;
  w_tolerance : Qc;
  w_system : list device;
  w_average : nat;
  w_max_steps : list PyObj;
  w_kwargs : list (string * PyObj)
}.

Record Calibration : Type := mkCalibration {
  cal_calib : DataFrame;
  cal_motors : list Motor;
  cal_scale : list Qc;
  cal_start : list Qc
}.

Inductive call : Type -> Type :=
| ReadConfiguration (m : Motor) : call MotorConfig
| Input (prompt : string) : call string
| Position (m : Motor) : call Qc
| CentroidScan (a : ScanArgs) : call DataFrame
| MeasureAverage (devs : list device) (num : nat) (filters : PyObj)
    : call (list (string * Qc))
| WalkToPixel (a : WalkArgs) : call unit
| Configure (m : Motor) (c : Calibration) : call unit.

Inductive plan (A : Type) : Type :=
| Ret (a : A)
| Raise (e : exn)
| Emit (m : msg) (k : plan A)
| Call {X : Type} (c : call X) (k : result X -> plan A).

Arguments Ret {A} a.
Arguments Raise {A} e.
Arguments Emit {A} m k.
Arguments Call {A X} c k.

Module Plan.

Fixpoint bind {A B} (p : plan A) (f : A -> plan B) : plan B :=
  match p with
  | Ret a => f a
  | Raise e => Raise e
  | Emit m k => Emit m (bind k f)
  | Call c k => Call c (fun r => bind (k r) f)
  end.

(** a request whose failure propagates *)
Definition call_ {X} (c : call X) : plan X :=
  Call c (fun r => match r with inl e => Raise e | inr x => Ret x end).

Definition emit (m : msg) : plan unit := Emit m (Ret tt).

Definition lift {A} (r : result A) : plan A :=
  match r with inl e => Raise e | inr a => Ret a end.

(** [try: p  except <handled>: h] *)
Fixpoint try_except {A} (p : plan A) (h : exn -> option (plan A)) : plan A :=
  match p with
  | Ret a => Ret a
  | Raise e => match h e with Some q => q | None => Raise e end
  | Emit m k => Emit m (try_except k h)
  | Call c k => Call c (fun r => try_except (k r) h)
  end.

(** [try: p  finally: fin] *)
Fixpoint try_finally {A} (p : plan A) (fin : plan unit) : plan A :=
  match p with
  | Ret a => bind fin (fun _ => Ret a)
  | Raise e => bind fin (fun _ => Raise e)
  | Emit m k => Emit m (try_finally k fin)
  | Call c k => Call c (fun r => try_finally (k r) fin)
  end.

End Plan.

Notation "x <- p ;; k" := (Plan.bind p (fun x => k))
  (at level 100, p at next level, right associativity).
Notation "p ;;; k" := (Plan.bind p (fun _ => k))
  (at level 100, right associativity).

(** ** Running a plan against an engine

    The engine is an oracle: it answers the [n]-th request of the run. The
    run records every queued message and every request, in order. *)

Inductive event : Type :=
| EvMsg (m : msg)
| EvCall {X : Type} (c : call X).

Definition engine : Type := forall X : Type, call X -> nat -> result X.

Fixpoint run_from {A} (eng : engine) (n : nat) (p : plan A)
  : list event * result A :=
  match p with
  | Ret a => ([], inr a)
  | Raise e => ([], inl e)
  | Emit m k =>
      let '(tr, r) := run_from eng n k in (EvMsg m :: tr, r)
  | Call c k =>
      let '(tr, r) := run_from eng (S n) (k (eng _ c n)) in (EvCall c :: tr, r)
  end.

Definition run {A} (eng : engine) (p : plan A) : list event * result A :=
  run_from eng 0 p.

Definition trace {A} (eng : engine) (n : nat) (p : plan A) : list event :=
  fst (run_from eng n p).

Definition outcome {A} (eng : engine) (n : nat) (p : plan A) : result A :=
  snd (run_from eng n p).

(** the number of requests a run makes *)
Fixpoint calls_in (tr : list event) : nat :=
  match tr with
  | [] => 0
  | EvCall _ :: rest => S (calls_in rest)
  | EvMsg _ :: rest => calls_in rest
  end.

(** ** Python and numpy primitives used by the walk *)

Global Instance Detector_eq_dec : EqDecision Detector.
Proof. solve_decision. Defined.

Global Instance Motor_eq_dec : EqDecision Motor.
Proof. solve_decision. Defined.

Global Instance device_eq_dec : EqDecision device.
Proof. solve_decision. Defined.

Module Py.

(** [reads[key]] *)
Fixpoint dict_get (d : list (string * Qc)) (key : string) : result Qc :=
  match d with
  | [] => raise KeyError
  | (k, v) :: rest => if String.eqb key k then ok v else dict_get rest key
  end.

(** [l[i]] *)
Definition index {A} (l : list A) (i : nat) : result A :=
  match nth_error l i with
  | Some x => ok x
  | None => raise IndexError
  end.

(** [l.remove(x)]: drops the first occurrence, [ValueError] when absent *)
Fixpoint remove (x : device) (l : list device) : result (list device) :=
  match l with
  | [] => raise ValueError
  | y :: rest =>
      if bool_decide (x = y) then ok rest
      else (r <-r remove x rest ;; ok (y :: r))
  end.

Definition is_zero (x : Qc) : bool := Qeq_bool (this x) 0.

Definition ltb (x y : Qc) : bool := negb (Qle_bool (this y) (this x)).

(** [a / b] *)
Definition div (a b : Qc) : result Qc :=
  if is_zero b then raise ZeroDivisionError else ok (a / b)%Qc.

(** [average or 1] *)
Definition or_one (average : option nat) : nat :=
  match average with
  | None => 1
  | Some 0 => 1
  | Some n => n
  end.

(** numpy's [argmax]: the index of the first occurrence of the maximum;
    an empty array is a [ValueError]. *)
Fixpoint argmax_from (best_i : nat) (best : Qc) (i : nat) (l : list Qc) : nat :=
  match l with
  | [] => best_i
  | x :: rest =>
      if ltb best x then argmax_from i x (S i) rest
      else argmax_from best_i best (S i) rest
  end.

Definition argmax (l : list Qc) : result nat :=
  match l with
  | [] => raise ValueError
  | x :: rest => ok (argmax_from 0 x 1 rest)
  end.

(** [n * args] for a tuple [args] *)
Definition tuple_times {A} (n : nat) (args : list A) : list A :=
  concat (repeat args n).

End Py.

(** ** [detector_scaling_walk] (lines 274-410) *)

(** line 369: [abs(df_scan[dfld] - dfld_start).values.argmax()] *)
Definition farthest_row (col : Series) (dfld_start : Qc) : result nat :=
  Py.argmax (DF.abs (DF.sub_scalar col dfld_start)).

(** the tuning parameters after [as_list] (lines 341-347), and the extra
    arguments handed on to [walk_to_pixel] *)
Record WalkParams : Type := mkWalkParams {
  p_first_step : list Qc;
  p_average : option nat;
  p_filters : PyObj;
  p_tolerance : list Qc;
  p_max_steps : list nat;
  p_system : list device;
  p_gradients : list (option Qc);
  p_args : list PyObj;
  p_kwargs : list (string * PyObj)
}.

(** keywords the call of lines 375-386 gives itself; one of them arriving
    again through [**kwargs] is a [TypeError] *)
Definition walk_keywords : list string :=
  ["filters"; "gradient"; "target_fields"; "first_step"; "tolerance";
   "system"; "average"; "max_steps"].

Definition duplicate_keyword (given : list string) (kwargs : list (string * PyObj))
  : bool :=
  existsb (fun k => mem_str k given) (map fst kwargs).

(** [zip(detector_fields, calib_fields, calib_motors)] *)
Fixpoint zip3 {A B C} (a : list A) (b : list B) (c : list C) : list (A * B * C) :=
  match a, b, c with
  | x :: a', y :: b', z :: c' => (x, y, z) :: zip3 a' b' c'
  | _, _, _ => []
  end.

Section ScalingWalk.

Variable df_scan : DataFrame.
Variable detector : Detector.
Variable prm : WalkParams.
(** [system = as_list(system or []) + calib_motors] *)
Variable system : list device.

Definition average : nat := Py.or_one (p_average prm).

(** lines 372-386: the body of the [try] *)
Definition walk_attempt (i : nat) (dfld cfld : string) (cmotor : Motor)
  (inp_system : list device) (idx_max : nat) : plan unit :=
  _ <- Plan.lift (DF.iloc_at df_scan idx_max dfld) ;;
  Plan.emit (Log Debug "Beginning walk") ;;;
  target <- Plan.lift (DF.iloc_at df_scan idx_max dfld) ;;
  gradient <- Plan.lift (Py.index (p_gradients prm) i) ;;
  first_step <- Plan.lift (Py.index (p_first_step prm) i) ;;
  tolerance <- Plan.lift (Py.index (p_tolerance prm) i) ;;
  max_steps <- Plan.lift (Py.index (p_max_steps prm) i) ;;
  if duplicate_keyword walk_keywords (p_kwargs prm) then Raise TypeError
  else
    Plan.call_ (WalkToPixel
      (mkWalkArgs detector cmotor target (p_filters prm) gradient
         [dfld; cfld] first_step tolerance inp_system average
         (Py.tuple_times max_steps (p_args prm)) (p_kwargs prm))).

(** lines 388-395: the two handlers *)
Definition walk_handler (cmotor : Motor) (e : exn) : option (plan unit) :=
  match e with
  | RuntimeError =>
      Some (_ <- Plan.call_ (Position cmotor) ;;
            Plan.emit (Log Warning "walk_to_pixel raised a RuntimeError"))
  | LimitError =>
      Some (_ <- Plan.call_ (Position cmotor) ;;
            Plan.emit (Log Warning "walk_to_pixel tried to exceed the limits"))
  | _ => None
  end.

(** lines 397-407: read back, compute the scale, extend both lists *)
Definition walk_finish (dfld cfld : string) (motor_start dfld_start : Qc)
  (scaling start_positions : list Qc) : plan (list Qc * list Qc) :=
  reads <- Plan.call_ (MeasureAverage (DevDetector detector :: system)
                         average (p_filters prm)) ;;
  motor_end <- Plan.lift (Py.dict_get reads cfld) ;;
  dfld_end <- Plan.lift (Py.dict_get reads dfld) ;;
  scale <- Plan.lift (Py.div (motor_end - motor_start)%Qc
                             (dfld_end - dfld_start)%Qc) ;;
  Ret (scaling ++ [scale], start_positions ++ [motor_start]).

(** lines 356-395: the reads before the walk, then the walk under its
    handlers; the value is the pair [(motor_start, dfld_start)] *)
Definition walk_begin (i : nat) (dfld cfld : string) (cmotor : Motor)
  : plan (Qc * Qc) :=
  inp_system <- Plan.lift (Py.remove (DevMotor cmotor) system) ;;
  reads <- Plan.call_ (MeasureAverage (DevDetector detector :: system)
                         average (p_filters prm)) ;;
  motor_start <- Plan.lift (Py.dict_get reads cfld) ;;
  dfld_start <- Plan.lift (Py.dict_get reads dfld) ;;
  col <- Plan.lift (DF.getitem df_scan dfld) ;;
  idx_max <- Plan.lift (farthest_row col dfld_start) ;;
  Plan.try_except (walk_attempt i dfld cfld cmotor inp_system idx_max)
                  (walk_handler cmotor) ;;;
  Ret (motor_start, dfld_start).

(** lines 353-407: one iteration of the loop *)
Definition walk_channel (i : nat) (dfld cfld : string) (cmotor : Motor)
  (scaling start_positions : list Qc) : plan (list Qc * list Qc) :=
  starts <- walk_begin i dfld cfld cmotor ;;
  walk_finish dfld cfld (fst starts) (snd starts) scaling start_positions.

Fixpoint walk_loop (i : nat) (chans : list (string * string * Motor))
  (scaling start_positions : list Qc) : plan (list Qc * list Qc) :=
  match chans with
  | [] => Ret (scaling, start_positions)
  | (dfld, cfld, cmotor) :: rest =>
      acc <- walk_channel i dfld cfld cmotor scaling start_positions ;;
      walk_loop (S i) rest (fst acc) (snd acc)
  end.

End ScalingWalk.

Definition detector_scaling_walk (df_scan : DataFrame) (detector : Detector)
  (calib_motors : list Motor) (prm : WalkParams) : plan (list Qc * list Qc) :=
  let detector_fields := discover_detector_fields df_scan detector in
  let calib_fields := discover_calib_fields df_scan in
  if negb (length detector_fields =? length calib_fields)%nat then Raise ValueError
  else
    let system := p_system prm ++ map DevMotor calib_motors in
    walk_loop df_scan detector prm system 0
      (zip3 detector_fields calib_fields calib_motors) [] [].

(** ** [calibration_centroid_scan] (lines 205-272) *)

(** [calib_fields or [m.name for m in calib_motors]]: an empty (or absent)
    list of fields falls back on the motors' names *)
Definition default_calib_fields (calib_fields : list string) (calib_motors : list Motor)
  : list string :=
  match calib_fields with
  | [] => map mot_name calib_motors
  | _ => calib_fields
  end.

(** line 271 *)
Definition mark_pre (calib_fields : list string) (df : DataFrame) : DataFrame :=
  mkDF (df_index df)
       (map (fun '(c, s) => (if mem_str c calib_fields then (c ++ "_pre")%string else c, s))
            (df_cols df)).

Definition scan_keywords : list string :=
  ["system"; "system_fields"; "return_to_start"].

Definition calibration_centroid_scan (detector : Detector) (motor : Motor)
  (calib_motors : list Motor) (start stop : Qc) (steps : nat)
  (calib_fields : list string) (args : list PyObj) (kwargs : list (string * PyObj))
  : plan DataFrame :=
  let calib_fields := default_calib_fields calib_fields calib_motors in
  if negb (length calib_motors =? length calib_fields)%nat then Raise ValueError
  else if duplicate_keyword scan_keywords kwargs then Raise TypeError
  else
    df <- Plan.call_ (CentroidScan
            (mkScanArgs detector motor start stop steps calib_motors calib_fields
               (Py.tuple_times 0 args) kwargs)) ;;
    Ret (mark_pre calib_fields df).

(** ** [calibration_scan] (lines 74-203) *)

Record ScanParams : Type := mkScanParams {
  s_first_step : Qc;
  s_average : option nat;
  s_filters : PyObj;
  s_tolerance : Qc;
  s_max_steps : nat;
  s_drop_missing : bool;
  s_gradients : option Qc;
  s_window_length : nat;
  s_args : list PyObj;
  s_kwargs : list (string * PyObj)
}.

(** the parameters of [detector_scaling_walk], in order (lines 274-277) *)
Definition walk_signature : list string :=
  ["df_scan"; "detector"; "calib_motors"; "first_step"; "average"; "filters";
   "tolerance"; "delay"; "max_steps"; "system"; "drop_missing"; "gradients"].

(** Binding the arguments of a call: the positional ones fill the leading
    parameters, and a keyword that names a parameter already filled is a
    [TypeError]. *)
Definition bind_call (signature : list string) (n_positional : nat)
  (keywords : list string) : result unit :=
  if existsb (fun k => mem_str k (firstn n_positional signature)) keywords
  then raise TypeError else ok tt.

Definition average_obj (a : option nat) : PyObj :=
  match a with
  | None => PyNone
  | Some n => PyNum (Q2Qc (inject_Z (Z.of_nat n)))
  end.

Definition calibration_scan (detector : Detector) (detector_fields : list string)
  (motor : Motor) (motor_fields : list string) (calib_motors : list Motor)
  (calib_fields : list string) (start stop : Qc) (steps : nat) (sp : ScanParams)
  : plan (DataFrame * DataFrame * list Qc * list Qc) :=
  let num := length detector_fields in
  let calib_fields := default_calib_fields calib_fields calib_motors in
  if (steps <=? s_window_length sp)%nat then Raise ValueError
  else if negb (length calib_motors =? num)%nat then Raise ValueError
  else if negb (length calib_fields =? num)%nat then Raise ValueError
  else
    Plan.emit (Log Debug "Beginning calibration scan") ;;;
    df_scan <- calibration_centroid_scan detector motor calib_motors start stop steps
                 calib_fields []
                 [("detector_fields", PyStrs detector_fields);
                  ("motor_fields", PyStrs motor_fields);
                  ("average", average_obj (s_average sp));
                  ("filters", s_filters sp)] ;;
    (* line 183 passes [df_scan, detector, motor, calib_motors, *args]
       positionally and [first_step=...] by keyword *)
    _ <- Plan.lift (bind_call walk_signature (4 + length (s_args sp))
           (["first_step"; "average"; "filters"; "tolerance"; "max_steps";
             "drop_missing"; "gradients"] ++ map fst (s_kwargs sp))) ;;
    let n := length (discover_detector_fields df_scan detector) in
    walked <- detector_scaling_walk df_scan detector [motor]
                (mkWalkParams (repeat (s_first_step sp) n) (s_average sp)
                   (s_filters sp) (repeat (s_tolerance sp) n)
                   (repeat (s_max_steps sp) n) [] (repeat (s_gradients sp) n)
                   [] (s_kwargs sp)) ;;
    let '(scaling, start_positions) := walked in
    df_calibration <- Plan.lift
      (build_calibration_df df_scan scaling start_positions detector) ;;
    Plan.emit (Log Debug "Completed calibration scan.") ;;;
    Ret (df_calibration, df_scan, scaling, start_positions).

(** ** [calibrate_motor] (lines 23-72) *)

(** [d[m] = pos] on an insertion-ordered dict *)
Fixpoint dict_set (d : list (Motor * Qc)) (m : Motor) (pos : Qc) : list (Motor * Qc) :=
  match d with
  | [] => [(m, pos)]
  | (m', p') :: rest =>
      if bool_decide (m = m') then (m', pos) :: rest
      else (m', p') :: dict_set rest m pos
  end.

(** line 50: [{m : m.position for m in [motor]+calib_motors}] *)
Fixpoint snapshot (ms : list Motor) (d : list (Motor * Qc)) : plan (list (Motor * Qc)) :=
  match ms with
  | [] => Ret d
  | m :: rest =>
      pos <- Plan.call_ (Position m) ;;
      snapshot rest (dict_set d m pos)
  end.

(** lines 65-66 *)
Fixpoint set_all (d : list (Motor * Qc)) (group : string) : plan unit :=
  match d with
  | [] => Ret tt
  | (mot, pos) :: rest => Emit (AbsSet mot pos group) (set_all rest group)
  end.

(** the prompt of line 38, with its leading newline *)
Definition prompt : string :=
  String (ascii_of_nat 10) "Confirm Overwrite [y/n]: ".

Section CalibrateMotor.

(** [short_uid]: the label generator of bluesky *)
Variable short_uid : string -> string.
(** the module-level name [return_to_start] read at lines 48 and 63;
    [None] when the name is not bound *)
Variable return_to_start : option bool.
(** the generator made by the call of lines 54-59 *)
Variable pipeline : plan (DataFrame * DataFrame * list Qc * list Qc).

Variable motor : Motor.
Variable calib_motors : list Motor.
Variable confirm_overwrite : bool.

(** lines 64-68 *)
Definition restore (initial_motor_positions : list (Motor * Qc)) : plan unit :=
  let group := short_uid "set" in
  set_all initial_motor_positions group ;;;
  Plan.emit (Wait group).

(** lines 37-41 *)
Definition ask : plan string :=
  Plan.try_except (Plan.call_ (Input prompt))
    (fun _ => Some (Plan.emit (Log Warning "Exception raised") ;;; Ret "n")).

(** lines 30-45: [true] when the plan goes on, [false] when it returns *)
Definition confirm : plan bool :=
  motor_config <- Plan.call_ (ReadConfiguration motor) ;;
  if cfg_calib motor_config && cfg_motors motor_config then
    Plan.emit (Log Warning "Running the calibration procedure will overwrite the existing calibration.") ;;;
    if confirm_overwrite then
      response <- ask ;;
      if negb (String.eqb (PyStr.lower response) "y") then
        Plan.emit (Log Info "\Calibration cancelled.") ;;; Ret false
      else
        Plan.emit (Log Debug "Overwrite confirmed.") ;;; Ret true
    else Ret true
  else Ret true.

(** lines 47-72 *)
Definition scan_and_commit : plan unit :=
  match return_to_start with
  | None => Raise NameError
  | Some rts =>
      initial_motor_positions <-
        (if rts then snapshot (motor :: calib_motors) [] else Ret []) ;;
      res <- Plan.try_finally pipeline
               (if rts then restore initial_motor_positions else Ret tt) ;;
      let '(df_calib, _, scaling, start_pos) := res in
      Plan.call_ (Configure motor
        (mkCalibration df_calib (motor :: calib_motors) scaling start_pos))
  end.

Definition calibrate_motor : plan unit :=
  proceed <- confirm ;;
  if proceed then scan_and_commit else Ret tt.

End CalibrateMotor.

(** ** Vocabulary of the properties *)

(** line 50, under its guard *)
Definition snapshot_plan (motor : Motor) (calib_motors : list Motor) (rts : bool)
  : plan (list (Motor * Qc)) :=
  if rts then snapshot (motor :: calib_motors) [] else Ret [].

(** the request of lines 361 and 398 *)
Definition measure_request (detector : Detector) (prm : WalkParams)
  (system : list device) : call (list (string * Qc)) :=
  MeasureAverage (DevDetector detector :: system) (average prm) (p_filters prm).

(** the request of lines 375-386 *)
Definition walk_request (detector : Detector) (prm : WalkParams) (cmotor : Motor)
  (inp_system : list device) (dfld cfld : string) (target : Qc)
  (gradient : option Qc) (first_step tolerance : Qc) (max_steps : nat) : call unit :=
  WalkToPixel
    (mkWalkArgs detector cmotor target (p_filters prm) gradient [dfld; cfld]
       first_step tolerance inp_system (average prm)
       (Py.tuple_times max_steps (p_args prm)) (p_kwargs prm)).

Definition walk_warning (e : exn) : string :=
  match e with
  | RuntimeError => "walk_to_pixel raised a RuntimeError"
  | _ => "walk_to_pixel tried to exceed the limits"
  end.

(** the events of a channel whose walk fails with a handled exception *)
Definition failed_walk_events (measure : call (list (string * Qc)))
  (walk : call unit) (cmotor : Motor) (e : exn) : list event :=
  [EvCall measure; EvMsg (Log Debug "Beginning walk");
   EvCall walk; EvCall (Position cmotor);
   EvMsg (Log Warning (walk_warning e)); EvCall measure].

(** line 405 *)
Definition recovered_scale (motor_start dfld_start motor_end dfld_end : Qc) : Qc :=
  ((motor_end - motor_start) / (dfld_end - dfld_start))%Qc.

(** the index of the next request once [p] has run from request [n] *)
Definition calls_after {A} (eng : engine) (n : nat) (p : plan A) : nat :=
  (n + calls_in (trace eng n p))%nat.

(** the target of a walk request, if the event is one *)
Definition walk_target_of (ev : event) : option Qc :=
  match ev with
  | EvCall c =>
      match c with
      | WalkToPixel a => Some (w_target a)
      | _ => None
      end
  | EvMsg _ => None
  end.

(** the detector column of the end-to-end scenario: values 0..10 *)
Definition scenario_column : Series :=
  map qz [0; 1; 2; 3; 4; 5; 6; 7; 8; 9; 10]%Z.

(** a scan table with at least one row whose columns all span the index *)
Definition well_formed (df : DataFrame) : Prop :=
  df_index df <> [] /\
  Forall (fun cs => length (snd cs) = length (df_index df)) (df_cols df).

Definition chan_cfld (ch : Qc * Qc * string * string) : string := snd (fst ch).

(** the lookups one iteration makes all succeed *)
Definition chan_ok (df_scan : DataFrame) (ch : Qc * Qc * string * string) : Prop :=
  let '(_, _, cfld, dfld) := ch in
  exists d d0 pre,
    DF.getitem df_scan dfld = ok d /\ nth_error d 0 = Some d0 /\
    DF.getitem df_scan (cfld ++ "_pre") = ok pre.

(** ** Devices, tables and engines of the examples *)

(** what the scan engine returns: the columns of [ex_scan] before line 271
    marks the corrective ones *)
Definition ex_raw_scan : DataFrame :=
  mkDF (map qz [0; 1; 2]%Z)
    [ ("det_x", map qz [10; 12; 15]%Z);
      ("det_y", map qz [7; 7; 9]%Z);
      ("delay", map qz [0; 1; 2]%Z);
      ("m1", map qz [100; 101; 102]%Z);
      ("m2", map qz [50; 50; 50]%Z) ].

(** the averaged reads answered to request [n] *)
Definition ex_reads (n : nat) : list (string * Qc) :=
  [ ("det_x", qz (Z.of_nat n)); ("det_y", qz (2 * Z.of_nat n));
    ("m1", qz (100 + 3 * Z.of_nat n)); ("m2", qz (50 + Z.of_nat n)) ].

(** an engine with no prior calibration, on which the user answers ["y"],
    a motor stands at its identifier and walks and commits succeed *)
Definition ex_engine : engine :=
  fun X c =>
    match c in call X return nat -> result X with
    | ReadConfiguration _ => fun _ => ok (mkConfig false false)
    | Input _ => fun _ => ok "y"
    | Position m => fun _ => ok (qz (Z.of_nat (mot_id m)))
    | CentroidScan _ => fun _ => ok ex_raw_scan
    | MeasureAverage _ _ _ => fun n => ok (ex_reads n)
    | WalkToPixel _ => fun _ => ok tt
    | Configure _ _ => fun _ => ok tt
    end.

Definition ex_motor : Motor := mkMotor 0 "delay" "delay".

Definition ex_m1 : Motor := mkMotor 1 "m1" "corrector 1".

Definition ex_m2 : Motor := mkMotor 2 "m2" "corrector 2".

Definition ex_scan_params : ScanParams :=
  mkScanParams (qz 1) None PyNone (qz 1) 5 true None 9 [] [].

Definition is_scan_request (ev : event) : bool :=
  match ev with
  | EvCall c => match c with CentroidScan _ => true | _ => false end
  | EvMsg _ => false
  end.

Definition overwrite_warning : msg :=
  Log Warning "Running the calibration procedure will overwrite the existing calibration.".

(** the answer at the prompt is a refusal: an exception, or a response
    whose lower-case form is not ["y"] *)
Definition declines (answer : result string) : Prop :=
  match answer with
  | inl _ => True
  | inr response => PyStr.lower response <> "y"
  end.

(** what the prompt adds to the trace when it raises *)
Definition prompt_failure_log (answer : result string) : list event :=
  match answer with
  | inl _ => [EvMsg (Log Warning "Exception raised")]
  | inr _ => []
  end.

(** an engine on which a calibration is loaded and the user answers "n" *)
Definition ex_engine_declining : engine :=
  fun X c =>
    match c in call X return nat -> result X with
    | ReadConfiguration _ => fun _ => ok (mkConfig true true)
    | Input _ => fun _ => ok "n"
    | Position m => fun _ => ok (qz 0)
    | CentroidScan _ => fun _ => ok ex_raw_scan
    | MeasureAverage _ _ _ => fun n => ok (ex_reads n)
    | WalkToPixel _ => fun _ => ok tt
    | Configure _ _ => fun _ => ok tt
    end.

(** lines 64-68 as events: one [abs_set] per recorded motor, all in one
    group, then the [wait] on that group *)
Definition restore_events (init : list (Motor * Qc)) (group : string) : list event :=
  map (fun mp => EvMsg (AbsSet (fst mp) (snd mp) group)) init ++ [EvMsg (Wait group)].

Definition commit_of (motor : Motor) (calib_motors : list Motor)
  (res : DataFrame * DataFrame * list Qc * list Qc) : Calibration :=
  let '(df_calib, _, scaling, start_pos) := res in
  mkCalibration df_calib (motor :: calib_motors) scaling start_pos.

(** the events after restoration: the commit request, if the pipeline returned *)
Definition commit_events (motor : Motor) (calib_motors : list Motor)
  (r : result (DataFrame * DataFrame * list Qc * list Qc)) : list event :=
  match r with
  | inl _ => []
  | inr res => [EvCall (Configure motor (commit_of motor calib_motors res))]
  end.

Definition is_set_request (ev : event) : bool :=
  match ev with
  | EvMsg (AbsSet _ _ _) => true
  | _ => false
  end.

Definition is_commit_request (ev : event) : bool :=
  match ev with
  | EvCall c => match c with Configure _ _ => true | _ => false end
  | EvMsg _ => false
  end.

(** the pipeline as [calibration_scan] runs it on the example devices *)
Definition ex_pipeline : plan (DataFrame * DataFrame * list Qc * list Qc) :=
  calibration_scan ex_detector ["det_x"; "det_y"] ex_motor ["delay"]
    [ex_m1; ex_m2] ["m1"; "m2"] (qz 0) (qz 10) 11 ex_scan_params.

(** the exceptions handled at lines 388 and 392 *)
Definition recoverable (e : exn) : Prop := e = RuntimeError \/ e = LimitError.

(** an engine on which every walk exceeds the limits of its motor *)
Definition ex_engine_limit : engine :=
  fun X c =>
    match c in call X return nat -> result X with
    | ReadConfiguration _ => fun _ => ok (mkConfig false false)
    | Input _ => fun _ => ok "y"
    | Position m => fun _ => ok (qz (Z.of_nat (mot_id m)))
    | CentroidScan _ => fun _ => ok ex_raw_scan
    | MeasureAverage _ _ _ => fun n => ok (ex_reads n)
    | WalkToPixel _ => fun _ => inl LimitError
    | Configure _ _ => fun _ => ok tt
    end.

Definition ex_walk_params : WalkParams :=
  mkWalkParams [qz 1; qz 1] None PyNone [qz 1; qz 1] [5; 5] []
               [None; None] [] [].

Definition ex_system : list device := [DevMotor ex_m1; DevMotor ex_m2].

(** a scan table with one more column at its end *)
Definition add_column (df : DataFrame) (c : string) (s : Series) : DataFrame :=
  mkDF (df_index df) (df_cols df ++ [(c, s)]).

(** ** [build_calibration_df] on a store of DataFrame objects

    The same function with its DataFrames as objects in a store: the scan
    table is reached through a reference, [df_corrections] is a fresh
    object that the loop updates in place, and the column selection and the
    concatenation make fresh objects. *)

Abbreviation heap := (list DataFrame).

Definition HeapM (A : Type) : Type := heap -> result A * heap.

Module Heap.

Definition bind {A B} (m : HeapM A) (f : A -> HeapM B) : HeapM B :=
  fun h =>
    match m h with
    | (inl e, h') => (inl e, h')
    | (inr a, h') => f a h'
    end.

Definition lift {A} (r : result A) : HeapM A := fun h => (r, h).

Definition read (l : nat) : HeapM DataFrame :=
  fun h =>
    match h !! l with
    | Some df => (ok df, h)
    | None => (raise (OtherError "dangling reference"), h)
    end.

Definition alloc (df : DataFrame) : HeapM nat :=
  fun h => (ok (length h), h ++ [df]).

Definition write (l : nat) (df : DataFrame) : HeapM unit :=
  fun h => (ok tt, <[l := df]> h).

(** [obj[c]] *)
Definition getitem (l : nat) (c : string) : HeapM Series :=
  bind (read l) (fun df => lift (DF.getitem df c)).

(** [obj[c] = s] *)
Definition setitem (l : nat) (c : string) (s : Series) : HeapM unit :=
  bind (read l) (fun df => write l (DF.setitem df c s)).

End Heap.

Notation "x <-h m ;; k" := (Heap.bind m (fun x => k))
  (at level 100, m at next level, right associativity).

Definition correction_step_h (l_scan l_corr : nat) (ch : Qc * Qc * string * string)
  : HeapM unit :=
  let '(scale, start, cfld, dfld) := ch in
  d <-h Heap.getitem l_scan dfld ;;
  d' <-h Heap.getitem l_scan dfld ;;
  d0 <-h Heap.lift (DF.iloc d' 0) ;;
  _ <-h Heap.setitem l_corr (cfld ++ "_post_abs") (abs_correction start scale d d0) ;;
  a <-h Heap.getitem l_corr (cfld ++ "_post_abs") ;;
  pre <-h Heap.getitem l_scan (cfld ++ "_pre") ;;
  Heap.setitem l_corr (cfld ++ "_post_rel") (DF.sub a pre).

Fixpoint correction_loop_h (l_scan l_corr : nat)
  (chs : list (Qc * Qc * string * string)) : HeapM unit :=
  match chs with
  | [] => Heap.lift (ok tt)
  | ch :: rest =>
      _ <-h correction_step_h l_scan l_corr ch ;;
      correction_loop_h l_scan l_corr rest
  end.

Definition build_calibration_df_h (l_scan : nat) (scaling start_positions : list Qc)
  (detector : Detector) : HeapM nat :=
  df_scan <-h Heap.read l_scan ;;
  let detector_fields := discover_detector_fields df_scan detector in
  let calib_fields := discover_calib_fields df_scan in
  let motor_fields := discover_motor_fields df_scan detector_fields in
  if negb (length detector_fields =? length calib_fields)%nat
  then Heap.lift (raise ValueError)
  else
    l_corr <-h Heap.alloc (DF.empty (df_index df_scan)) ;;
    _ <-h correction_loop_h l_scan l_corr
            (zip4 scaling start_positions calib_fields detector_fields) ;;
    df_scan' <-h Heap.read l_scan ;;
    df_motor <-h Heap.lift (DF.select df_scan' motor_fields) ;;
    l_motor <-h Heap.alloc df_motor ;;
    df_motor' <-h Heap.read l_motor ;;
    df_corrections <-h Heap.read l_corr ;;
    Heap.alloc (DF.concat_cols df_motor' df_corrections).

Definition forget {A} (r : result A) : result unit :=
  match r with
  | inl e => inl e
  | inr _ => ok tt
  end.

(** the table a run on the store delivers *)
Definition result_table (run : result nat * heap) : result DataFrame :=
  match run with
  | (inl e, _) => inl e
  | (inr l, h') =>
      match h' !! l with
      | Some out => ok out
      | None => raise (OtherError "dangling reference")
      end
  end.

(** an engine on which every averaged read returns the same values *)
Definition ex_engine_flat : engine :=
  fun X c =>
    match c in call X return nat -> result X with
    | ReadConfiguration _ => fun _ => ok (mkConfig false false)
    | Input _ => fun _ => ok "y"
    | Position m => fun _ => ok (qz (Z.of_nat (mot_id m)))
    | CentroidScan _ => fun _ => ok ex_raw_scan
    | MeasureAverage _ _ _ => fun _ => ok (ex_reads 0)
    | WalkToPixel _ => fun _ => ok tt
    | Configure _ _ => fun _ => ok tt
    end.

(** ** Vocabulary of the further properties *)

(** the keyword arguments [calibration_scan] adds to the scan (lines 176-180) *)
Definition scan_kwargs (detector_fields motor_fields : list string) (sp : ScanParams)
  : list (string * PyObj) :=
  [("detector_fields", PyStrs detector_fields);
   ("motor_fields", PyStrs motor_fields);
   ("average", average_obj (s_average sp));
   ("filters", s_filters sp)].

(** the scan request of [calibration_scan] *)
Definition scan_request (detector : Detector) (detector_fields : list string)
  (motor : Motor) (motor_fields : list string) (calib_motors : list Motor)
  (calib_fields : list string) (start stop : Qc) (steps : nat) (sp : ScanParams)
  : call DataFrame :=
  CentroidScan
    (mkScanArgs detector motor start stop steps calib_motors
       (default_calib_fields calib_fields calib_motors) []
       (scan_kwargs detector_fields motor_fields sp)).

(** the events of lines 30-45: the configuration read, the prompt, log records *)
Definition is_confirm_event (ev : event) : bool :=
  match ev with
  | EvMsg (Log _ _) => true
  | EvMsg _ => false
  | EvCall c =>
      match c with
      | ReadConfiguration _ => true
      | Input _ => true
      | _ => false
      end
  end.

(** [response.lower() == "y"] *)
Definition accepts (response : string) : bool :=
  String.eqb (PyStr.lower response) "y".

(** the two correction columns of one channel, written from the formulas of
    lines 460-464: the absolute correction, then the relative one *)
Definition channel_columns (df_scan : DataFrame) (ch : Qc * Qc * string * string)
  : list (string * Series) :=
  let '(scale, start, cfld, dfld) := ch in
  match DF.getitem df_scan dfld, DF.getitem df_scan (cfld ++ "_pre") with
  | inr (d0 :: d), inr pre =>
      let absolute := abs_correction start scale (d0 :: d) d0 in
      [((cfld ++ "_post_abs")%string, absolute);
       ((cfld ++ "_post_rel")%string, DF.sub absolute pre)]
  | _, _ => []
  end.

(** the channels the table builder treats: [zip] stops at the shortest list *)
Definition table_channels (df_scan : DataFrame) (scaling start_positions : list Qc)
  (detector : Detector) : list (Qc * Qc * string * string) :=
  zip4 scaling start_positions (discover_calib_fields df_scan)
       (discover_detector_fields df_scan detector).

(** the scan request of [calibration_centroid_scan] (lines 263-268) *)
Definition centroid_request (detector : Detector) (motor : Motor)
  (calib_motors : list Motor) (start stop : Qc) (steps : nat)
  (calib_fields : list string) (kwargs : list (string * PyObj)) : call DataFrame :=
  CentroidScan
    (mkScanArgs detector motor start stop steps calib_motors
       (default_calib_fields calib_fields calib_motors) [] kwargs).

(** the keys of the snapshot *)
Definition dict_keys (d : list (Motor * Qc)) : list Motor := map fst d.

(** the motors of the [abs_set] messages of a run, in order *)
Fixpoint set_targets (tr : list event) : list Motor :=
  match tr with
  | [] => []
  | EvMsg (AbsSet m _ _) :: rest => m :: set_targets rest
  | _ :: rest => set_targets rest
  end.

Definition is_position_read (ev : event) : bool :=
  match ev with
  | EvCall c => match c with Position _ => true | _ => false end
  | EvMsg _ => false
  end.

(** the requests and messages of the scaling walk: averaged reads, walks,
    position reads and log records *)
Definition is_walk_event (ev : event) : bool :=
  match ev with
  | EvMsg (Log _ _) => true
  | EvMsg _ => false
  | EvCall c =>
      match c with
      | MeasureAverage _ _ _ => true
      | WalkToPixel _ => true
      | Position _ => true
      | _ => false
      end
  end.

(** the tuning parameters with another list of iteration caps *)
Definition with_max_steps (prm : WalkParams) (max_steps : list nat) : WalkParams :=
  mkWalkParams (p_first_step prm) (p_average prm) (p_filters prm) (p_tolerance prm)
    max_steps (p_system prm) (p_gradients prm) (p_args prm) (p_kwargs prm).

Definition is_walk_request (ev : event) : bool :=
  match ev with
  | EvCall c => match c with WalkToPixel _ => true | _ => false end
  | EvMsg _ => false
  end.

(** * Properties *)

(** ** Equations of [trace] and [outcome] *)

Section RunEquations.

Context {A : Type} (eng : engine) (n : nat).

Lemma trace_Ret (a : A) : trace eng n (Ret a) = [].
Proof. reflexivity. Qed.

Lemma trace_Raise (e : exn) : trace eng n (@Raise A e) = [].
Proof. reflexivity. Qed.

Lemma trace_Emit (m : msg) (k : plan A) :
  trace eng n (Emit m k) = EvMsg m :: trace eng n k.
Proof. unfold trace. simpl. destruct (run_from eng n k). reflexivity. Qed.

Lemma trace_Call {X} (c : call X) (k : result X -> plan A) :
  trace eng n (Call c k) = EvCall c :: trace eng (S n) (k (eng X c n)).
Proof.
  unfold trace. simpl. destruct (run_from eng (S n) (k (eng X c n))). reflexivity.
Qed.

Lemma outcome_Ret (a : A) : outcome eng n (Ret a) = ok a.
Proof. reflexivity. Qed.

Lemma outcome_Raise (e : exn) : outcome eng n (@Raise A e) = raise e.
Proof. reflexivity. Qed.

Lemma outcome_Emit (m : msg) (k : plan A) :
  outcome eng n (Emit m k) = outcome eng n k.
Proof. unfold outcome. simpl. destruct (run_from eng n k). reflexivity. Qed.

Lemma outcome_Call {X} (c : call X) (k : result X -> plan A) :
  outcome eng n (Call c k) = outcome eng (S n) (k (eng X c n)).
Proof.
  unfold outcome. simpl. destruct (run_from eng (S n) (k (eng X c n))). reflexivity.
Qed.

End RunEquations.

Create Rewrite HintDb run_eq.
#[export] Hint Rewrite @trace_Ret @trace_Raise @trace_Emit @trace_Call
  @outcome_Ret @outcome_Raise @outcome_Emit @outcome_Call : run_eq.

Ltac run_simpl :=
  unfold Plan.call_, Plan.emit; simpl; autorewrite with run_eq; simpl.

(** ** Order on numbers *)

Lemma ltb_lt (x y : Qc) : Py.ltb x y = true <-> (x < y)%Qc.
Proof.
  unfold Py.ltb. rewrite negb_true_iff.
  split; intros H.
  - apply Qcnot_le_lt. intros Hle.
    apply Qle_bool_iff in Hle. congruence.
  - destruct (Qle_bool (this y) (this x)) eqn:E; [|reflexivity].
    apply Qle_bool_iff in E. exfalso. exact (Qclt_not_le _ _ H E).
Qed.

Lemma ltb_ge (x y : Qc) : Py.ltb x y = false <-> (y <= x)%Qc.
Proof.
  split; intros H.
  - apply Qcnot_lt_le. intros Hlt. apply ltb_lt in Hlt. congruence.
  - destruct (Py.ltb x y) eqn:E; [|reflexivity].
    apply ltb_lt in E. exfalso. exact (Qclt_not_le _ _ E H).
Qed.

(** ** numpy's [argmax] returns the first maximum *)

Lemma argmax_from_spec (l : list Qc) :
  forall (best_i : nat) (best : Qc) (i : nat),
    (Py.argmax_from best_i best i l = best_i /\
     forall j x, nth_error l j = Some x -> (x <= best)%Qc)
    \/
    (exists k m,
        Py.argmax_from best_i best i l = (i + k)%nat /\
        nth_error l k = Some m /\ (best < m)%Qc /\
        (forall j x, nth_error l j = Some x -> (x <= m)%Qc) /\
        (forall j x, (j < k)%nat -> nth_error l j = Some x -> (x < m)%Qc)).
Proof.
  induction l as [|a l IH]; intros best_i best i; simpl.
  - left. split; [reflexivity|]. intros [|j] x Hx; discriminate.
  - destruct (Py.ltb best a) eqn:E.
    + apply ltb_lt in E.
      destruct (IH i a (S i)) as [[Hr Hall] | (k & m & Hr & Hk & Hlt & Hall & Hbefore)].
      * right. exists 0%nat, a. rewrite Hr.
        split; [lia|]. split; [reflexivity|]. split; [exact E|].
        split.
        -- intros [|j] x Hx; simpl in Hx.
           ++ injection Hx as <-. apply Qcle_refl.
           ++ eapply Hall; eauto.
        -- intros j x Hj. lia.
      * right. exists (S k), m. rewrite Hr.
        split; [lia|]. split; [exact Hk|].
        split; [eapply Qclt_trans; eauto|].
        split.
        -- intros [|j] x Hx; simpl in Hx.
           ++ injection Hx as <-. apply Qclt_le_weak. exact Hlt.
           ++ eapply Hall; eauto.
        -- intros [|j] x Hj Hx; simpl in Hx.
           ++ injection Hx as <-. exact Hlt.
           ++ eapply Hbefore; [|exact Hx]. lia.
    + apply ltb_ge in E.
      destruct (IH best_i best (S i)) as [[Hr Hall] | (k & m & Hr & Hk & Hlt & Hall & Hbefore)].
      * left. split; [exact Hr|].
        intros [|j] x Hx; simpl in Hx.
        -- injection Hx as <-. exact E.
        -- eapply Hall; eauto.
      * right. exists (S k), m. rewrite Hr.
        split; [lia|]. split; [exact Hk|]. split; [exact Hlt|].
        split.
        -- intros [|j] x Hx; simpl in Hx.
           ++ injection Hx as <-. apply Qclt_le_weak.
              eapply Qcle_lt_trans; eauto.
           ++ eapply Hall; eauto.
        -- intros [|j] x Hj Hx; simpl in Hx.
           ++ injection Hx as <-. eapply Qcle_lt_trans; eauto.
           ++ eapply Hbefore; [|exact Hx]. lia.
Qed.

Lemma argmax_first_max (l : list Qc) :
  l <> [] ->
  exists i m,
    Py.argmax l = ok i /\ nth_error l i = Some m /\
    (forall j x, nth_error l j = Some x -> (x <= m)%Qc) /\
    (forall j x, (j < i)%nat -> nth_error l j = Some x -> (x < m)%Qc).
Proof.
  destruct l as [|a l]; [congruence|]. intros _. simpl.
  destruct (argmax_from_spec l 0 a 1) as [[Hr Hall] | (k & m & Hr & Hk & Hlt & Hall & Hbefore)].
  - exists 0%nat, a. rewrite Hr. split; [reflexivity|]. split; [reflexivity|].
    split.
    + intros [|j] x Hx; simpl in Hx.
      * injection Hx as <-. apply Qcle_refl.
      * eapply Hall; eauto.
    + intros j x Hj. lia.
  - exists (S k), m. rewrite Hr. split; [reflexivity|]. split; [exact Hk|].
    split.
    + intros [|j] x Hx; simpl in Hx.
      * injection Hx as <-. apply Qclt_le_weak. exact Hlt.
      * eapply Hall; eauto.
    + intros [|j] x Hj Hx; simpl in Hx.
      * injection Hx as <-. exact Hlt.
      * eapply Hbefore; [|exact Hx]. lia.
Qed.

(** ** C2: the row the walk aims at *)

Lemma getitem_iloc_at (df : DataFrame) (c : string) (col : Series) (i : nat) (v : Qc) :
  DF.getitem df c = ok col ->
  length col = length (df_index df) ->
  nth_error col i = Some v ->
  DF.iloc_at df i c = ok v.
Proof.
  intros Hget Hlen Hnth. unfold DF.iloc_at.
  assert (Hi : (i < length col)%nat) by (apply nth_error_Some; congruence).
  rewrite <- Hlen.
  destruct (Nat.ltb_spec i (length col)) as [_|Hge]; [|lia].
  rewrite Hget. simpl. unfold DF.iloc. rewrite Hnth. reflexivity.
Qed.

Lemma walk_attempt_targets (df_scan : DataFrame) (detector : Detector)
  (prm : WalkParams) (i : nat) (dfld cfld : string) (cmotor : Motor)
  (inp_system : list device) (idx : nat) (v : Qc) (eng : engine) (n : nat) :
  DF.iloc_at df_scan idx dfld = ok v ->
  Forall (fun ev => walk_target_of ev = None \/ walk_target_of ev = Some v)
    (trace eng n
       (walk_attempt df_scan detector prm i dfld cfld cmotor inp_system idx)).
Proof.
  intros Hv. unfold walk_attempt. rewrite Hv. run_simpl.
  constructor; [left; reflexivity|].
  destruct (Py.index (p_gradients prm) i) as [e|g]; run_simpl; [constructor|].
  destruct (Py.index (p_first_step prm) i) as [e|fs]; run_simpl; [constructor|].
  destruct (Py.index (p_tolerance prm) i) as [e|tol]; run_simpl; [constructor|].
  destruct (Py.index (p_max_steps prm) i) as [e|ms]; run_simpl; [constructor|].
  destruct (duplicate_keyword walk_keywords (p_kwargs prm)); run_simpl; [constructor|].
  constructor; [right; reflexivity|].
  destruct (eng unit _ n) as [e|[]]; run_simpl; constructor.
Qed.




(** ** Strings: suffixes and labels *)

Lemma append_cons (c : ascii) (s t : string) :
  (String c s ++ t)%string = String c (s ++ t)%string.
Proof. reflexivity. Qed.

Lemma append_empty_l (t : string) : ("" ++ t)%string = t.
Proof. reflexivity. Qed.

Lemma length_append (a b : string) :
  String.length (a ++ b) = (String.length a + String.length b)%nat.
Proof.
  induction a as [|c a IH].
  - reflexivity.
  - rewrite append_cons. simpl. rewrite IH. reflexivity.
Qed.

(** two labels built with suffixes of the same length agree piecewise *)
Lemma append_inj_suffix (a b x y : string) :
  String.length x = String.length y ->
  (a ++ x)%string = (b ++ y)%string -> a = b /\ x = y.
Proof.
  revert b. induction a as [|c a IH]; intros [|c' b] Hlen Heq;
    rewrite ?append_cons, ?append_empty_l in Heq.
  - split; [reflexivity|exact Heq].
  - exfalso. apply (f_equal String.length) in Heq. simpl in Heq.
    rewrite length_append in Heq. lia.
  - exfalso. apply (f_equal String.length) in Heq. simpl in Heq.
    rewrite length_append in Heq. lia.
  - injection Heq as -> Heq. destruct (IH b Hlen Heq) as [-> ->]. split; reflexivity.
Qed.

Lemma endswith_append (s suf : string) :
  PyStr.endswith s suf = true -> exists p, s = (p ++ suf)%string.
Proof.
  induction s as [|c s IH]; cbn [PyStr.endswith]; intros H.
  - rewrite orb_false_r in H. apply String.eqb_eq in H. exists ""%string. exact H.
  - apply orb_true_iff in H. destruct H as [H|H].
    + apply String.eqb_eq in H. exists ""%string. exact H.
    + destruct (IH H) as [p ->]. exists (String c p). reflexivity.
Qed.

Lemma substring_prefix (p s : string) :
  String.substring 0 (String.length p) (p ++ s) = p.
Proof.
  induction p as [|c p IH].
  - rewrite append_empty_l. destruct s; reflexivity.
  - rewrite append_cons. simpl. rewrite IH. reflexivity.
Qed.

Lemma drop_last4_append (p suf : string) :
  String.length suf = 4%nat -> PyStr.drop_last4 (p ++ suf) = p.
Proof.
  intros Hlen. unfold PyStr.drop_last4.
  rewrite length_append, Hlen.
  replace (String.length p + 4 - 4)%nat with (String.length p) by lia.
  apply substring_prefix.
Qed.

(** a column that ends in ["_pre"] is its stripped name followed by ["_pre"] *)
Lemma drop_last4_pre (col : string) :
  is_pre col = true -> (PyStr.drop_last4 col ++ "_pre")%string = col.
Proof.
  intros H. destruct (endswith_append _ _ H) as [p ->].
  rewrite drop_last4_append by reflexivity. reflexivity.
Qed.

(** ** DataFrames: lookup after assignment *)

Lemma assoc_set_same (c : string) (s : Series) (cols : list (string * Series)) :
  DF.assoc c (DF.set_assoc c s cols) = Some s.
Proof.
  induction cols as [|[c' s'] cols IH]; simpl.
  - rewrite String.eqb_refl. reflexivity.
  - destruct (String.eqb c c') eqn:E; simpl; rewrite E; [reflexivity|exact IH].
Qed.

Lemma assoc_set_other (c c' : string) (s : Series) (cols : list (string * Series)) :
  c <> c' -> DF.assoc c (DF.set_assoc c' s cols) = DF.assoc c cols.
Proof.
  intros Hne. induction cols as [|[c2 s2] cols IH]; simpl.
  - destruct (String.eqb c c') eqn:E; [apply String.eqb_eq in E; contradiction|reflexivity].
  - destruct (String.eqb c' c2) eqn:E'; simpl.
    + apply String.eqb_eq in E'. subst c2.
      destruct (String.eqb c c') eqn:E; [apply String.eqb_eq in E; contradiction|reflexivity].
    + rewrite IH. reflexivity.
Qed.

Lemma getitem_setitem_same (df : DataFrame) (c : string) (s : Series) :
  DF.getitem (DF.setitem df c s) c = ok s.
Proof. unfold DF.getitem, DF.setitem. simpl. rewrite assoc_set_same. reflexivity. Qed.

Lemma getitem_setitem_other (df : DataFrame) (c c' : string) (s : Series) :
  c <> c' -> DF.getitem (DF.setitem df c' s) c = DF.getitem df c.
Proof.
  intros H. unfold DF.getitem, DF.setitem. simpl.
  rewrite assoc_set_other by exact H. reflexivity.
Qed.

Lemma assoc_of_column (c : string) (cols : list (string * Series)) :
  List.In c (map fst cols) ->
  exists s, DF.assoc c cols = Some s /\ List.In (c, s) cols.
Proof.
  induction cols as [|[c' s'] cols IH]; simpl; [tauto|].
  intros Hin. destruct (String.eqb c c') eqn:E.
  - apply String.eqb_eq in E. subst c'. exists s'. split; [reflexivity|left; reflexivity].
  - destruct Hin as [Heq|Hin].
    + subst c'. rewrite String.eqb_refl in E. discriminate.
    + destruct (IH Hin) as (s & Hs & Hmem). exists s. split; [exact Hs|right; exact Hmem].
Qed.

Lemma getitem_of_column (df : DataFrame) (c : string) :
  well_formed df ->
  List.In c (DF.columns df) ->
  exists s s0, DF.getitem df c = ok s /\ nth_error s 0 = Some s0 /\
               length s = length (df_index df).
Proof.
  intros [Hne Hall] Hin.
  destruct (assoc_of_column c (df_cols df) Hin) as (s & Hs & Hmem).
  rewrite List.Forall_forall in Hall. specialize (Hall _ Hmem). simpl in Hall.
  destruct s as [|s0 s].
  - exfalso. destruct (df_index df); [congruence|discriminate].
  - exists (s0 :: s), s0. unfold DF.getitem. rewrite Hs.
    split; [reflexivity|]. split; [reflexivity|exact Hall].
Qed.

(** ** Series arithmetic, row by row *)

Lemma nth_abs_correction (start scale : Qc) (d : Series) (d0 : Qc) (i : nat) (di : Qc) :
  nth_error d i = Some di ->
  nth_error (abs_correction start scale d d0) i
  = Some (start - (di - d0) * scale)%Qc.
Proof.
  intros H. unfold abs_correction, DF.rsub_scalar, DF.mul_scalar, DF.sub_scalar.
  rewrite !map_map, nth_error_map, H. reflexivity.
Qed.

Lemma length_abs_correction (start scale : Qc) (d : Series) (d0 : Qc) :
  length (abs_correction start scale d d0) = length d.
Proof.
  unfold abs_correction, DF.rsub_scalar, DF.mul_scalar, DF.sub_scalar.
  rewrite !length_map. reflexivity.
Qed.

Lemma nth_series_sub (a b : Series) (i : nat) (x y : Qc) :
  nth_error a i = Some x -> nth_error b i = Some y ->
  nth_error (DF.sub a b) i = Some (x - y)%Qc.
Proof.
  revert b i. induction a as [|a0 a IH]; intros [|b0 b] [|i] Ha Hb;
    simpl in *; try discriminate.
  - congruence.
  - apply IH; assumption.
Qed.

Lemma length_series_sub (a b : Series) :
  length a = length b -> length (DF.sub a b) = length a.
Proof.
  revert b. induction a as [|a0 a IH]; intros [|b0 b] H; simpl in *;
    try discriminate; [reflexivity|].
  rewrite IH by lia. reflexivity.
Qed.

Lemma anchor_at_start (start scale d0 : Qc) :
  (start - (d0 - d0) * scale)%Qc = start.
Proof. ring. Qed.

(** ** The correction loop of [build_calibration_df] *)

Lemma label_abs_rel (a b : string) :
  (a ++ "_post_abs")%string <> (b ++ "_post_rel")%string.
Proof.
  intros H. apply append_inj_suffix in H; [|reflexivity].
  destruct H as [_ H]. discriminate.
Qed.

Lemma label_abs_inj (a b : string) :
  (a ++ "_post_abs")%string = (b ++ "_post_abs")%string -> a = b.
Proof. intros H. apply append_inj_suffix in H; [tauto|reflexivity]. Qed.

Lemma label_rel_inj (a b : string) :
  (a ++ "_post_rel")%string = (b ++ "_post_rel")%string -> a = b.
Proof. intros H. apply append_inj_suffix in H; [tauto|reflexivity]. Qed.

Lemma correction_step_ok (df_scan acc : DataFrame) (scale start : Qc)
  (cfld dfld : string) (d : Series) (d0 : Qc) (pre : Series) :
  DF.getitem df_scan dfld = ok d ->
  nth_error d 0 = Some d0 ->
  DF.getitem df_scan (cfld ++ "_pre") = ok pre ->
  correction_step df_scan acc (scale, start, cfld, dfld)
  = ok (DF.setitem
          (DF.setitem acc (cfld ++ "_post_abs") (abs_correction start scale d d0))
          (cfld ++ "_post_rel")
          (DF.sub (abs_correction start scale d d0) pre)).
Proof.
  intros Hd Hd0 Hpre. unfold correction_step.
  rewrite Hd. simpl. unfold DF.iloc. rewrite Hd0. simpl.
  rewrite getitem_setitem_same. simpl. rewrite Hpre. reflexivity.
Qed.

Lemma correction_loop_ok (df_scan : DataFrame) (chs : list (Qc * Qc * string * string)) :
  Forall (chan_ok df_scan) chs ->
  List.NoDup (map chan_cfld chs) ->
  forall acc, exists corr,
    correction_loop df_scan acc chs = ok corr /\
    df_index corr = df_index acc /\
    (forall scale start cfld dfld d d0 pre,
        List.In (scale, start, cfld, dfld) chs ->
        DF.getitem df_scan dfld = ok d ->
        nth_error d 0 = Some d0 ->
        DF.getitem df_scan (cfld ++ "_pre") = ok pre ->
        DF.getitem corr (cfld ++ "_post_abs") = ok (abs_correction start scale d d0) /\
        DF.getitem corr (cfld ++ "_post_rel")
        = ok (DF.sub (abs_correction start scale d d0) pre)) /\
    (forall label,
        (forall ch, List.In ch chs ->
                    label <> (chan_cfld ch ++ "_post_abs")%string /\
                    label <> (chan_cfld ch ++ "_post_rel")%string) ->
        DF.getitem corr label = DF.getitem acc label).
Proof.
  induction chs as [|[[[scale start] cfld] dfld] chs IH]; intros Hok Hnd acc.
  - exists acc. simpl. split; [reflexivity|]. split; [reflexivity|].
    split; [intros; contradiction|reflexivity].
  - inversion Hok as [|? ? Hch Hrest]; subst.
    simpl in Hnd. inversion Hnd as [|? ? Hnotin Hnd']; subst.
    destruct Hch as (d & d0 & pre & Hd & Hd0 & Hpre).
    cbn [correction_loop].
    rewrite (correction_step_ok _ _ _ _ _ _ _ _ _ Hd Hd0 Hpre).
    cbn [rbind ok].
    set (acc1 := DF.setitem _ _ _).
    destruct (IH Hrest Hnd' acc1) as (corr & Hloop & Hidx & Hchs & Hframe).
    exists corr. split; [exact Hloop|]. split; [rewrite Hidx; reflexivity|].
    assert (Hfresh : forall ch, List.In ch chs ->
              (cfld ++ "_post_abs")%string <> (chan_cfld ch ++ "_post_abs")%string /\
              (cfld ++ "_post_abs")%string <> (chan_cfld ch ++ "_post_rel")%string /\
              (cfld ++ "_post_rel")%string <> (chan_cfld ch ++ "_post_abs")%string /\
              (cfld ++ "_post_rel")%string <> (chan_cfld ch ++ "_post_rel")%string).
    { intros ch Hin.
      assert (Hne : cfld <> chan_cfld ch).
      { intros Heq. apply Hnotin. unfold chan_cfld at 1. simpl.
        rewrite Heq. apply (in_map chan_cfld). exact Hin. }
      repeat split.
      - intros H. apply label_abs_inj in H. contradiction.
      - apply label_abs_rel.
      - intros H. symmetry in H. exact (label_abs_rel _ _ H).
      - intros H. apply label_rel_inj in H. contradiction. }
    split.
    + intros sc st cf dfl d' d0' pre' Hin Hd' Hd0' Hpre'.
      destruct Hin as [Heq|Hin].
      * injection Heq as <- <- <- <-.
        rewrite Hd in Hd'. injection Hd' as <-.
        rewrite Hd0 in Hd0'. injection Hd0' as <-.
        rewrite Hpre in Hpre'. injection Hpre' as <-.
        rewrite !Hframe.
        -- unfold acc1. split.
           ++ rewrite getitem_setitem_other by apply label_abs_rel.
              apply getitem_setitem_same.
           ++ apply getitem_setitem_same.
        -- intros ch Hch. destruct (Hfresh ch Hch) as (_ & _ & H3 & H4). tauto.
        -- intros ch Hch. destruct (Hfresh ch Hch) as (H1 & H2 & _ & _). tauto.
      * eapply Hchs; eauto.
    + intros label Hlabel.
      rewrite Hframe by (intros ch Hch; apply Hlabel; right; exact Hch).
      destruct (Hlabel (scale, start, cfld, dfld) (or_introl eq_refl)) as [Ha Hr].
      unfold acc1, chan_cfld in *. simpl in Ha, Hr.
      rewrite getitem_setitem_other by exact Hr.
      rewrite getitem_setitem_other by exact Ha. reflexivity.
Qed.

Lemma zip4_nth {A B C D} (a : list A) (b : list B) (c : list C) (d : list D)
  (k : nat) (x : A) (y : B) (z : C) (w : D) :
  nth_error (zip4 a b c d) k = Some (x, y, z, w) ->
  nth_error a k = Some x /\ nth_error b k = Some y /\
  nth_error c k = Some z /\ nth_error d k = Some w.
Proof.
  revert b c d k.
  induction a as [|a0 a IH]; intros [|b0 b] [|c0 c] [|d0 d] [|k] H;
    simpl in H; try discriminate.
  - injection H as <- <- <- <-. repeat split.
  - simpl. apply IH. exact H.
Qed.

Lemma zip4_in_third {A B C D} (a : list A) (b : list B) (c : list C) (d : list D)
  (ch : A * B * C * D) :
  List.In ch (zip4 a b c d) -> List.In (snd (fst ch)) c /\ List.In (snd ch) d.
Proof.
  revert b c d.
  induction a as [|a0 a IH]; intros [|b0 b] [|c0 c] [|d0 d] H;
    simpl in H; try contradiction.
  destruct H as [<-|H]; simpl.
  - split; left; reflexivity.
  - destruct (IH _ _ _ H). split; right; assumption.
Qed.

Lemma zip4_nodup_third {A B D} (a : list A) (b : list B) (c : list string) (d : list D) :
  List.NoDup c ->
  List.NoDup (map (fun ch : A * B * string * D => snd (fst ch)) (zip4 a b c d)).
Proof.
  revert b c d.
  induction a as [|a0 a IH]; intros [|b0 b] [|c0 c] [|d0 d] H;
    simpl; try constructor.
  - inversion H as [|? ? Hnotin Hnd]; subst.
    intros Hin. apply Hnotin. apply in_map_iff in Hin.
    destruct Hin as (ch & <- & Hch). apply (zip4_in_third _ _ _ _ _ Hch).
  - inversion H; subst. apply IH. assumption.
Qed.

Lemma calib_field_column (df_scan : DataFrame) (cfld : string) :
  List.In cfld (discover_calib_fields df_scan) ->
  List.In (cfld ++ "_pre")%string (DF.columns df_scan).
Proof.
  unfold discover_calib_fields. intros H. apply in_map_iff in H.
  destruct H as (col & <- & Hcol). apply filter_In in Hcol.
  destruct Hcol as [Hin Hpre]. rewrite drop_last4_pre by exact Hpre. exact Hin.
Qed.

Lemma detector_field_column (df_scan : DataFrame) (detector : Detector) (dfld : string) :
  List.In dfld (discover_detector_fields df_scan detector) ->
  List.In dfld (DF.columns df_scan).
Proof.
  unfold discover_detector_fields. intros H. apply filter_In in H. tauto.
Qed.

Lemma channels_ok (df_scan : DataFrame) (detector : Detector)
  (scaling start_positions : list Qc) :
  well_formed df_scan ->
  Forall (chan_ok df_scan)
    (zip4 scaling start_positions (discover_calib_fields df_scan)
          (discover_detector_fields df_scan detector)).
Proof.
  intros Hwf. apply List.Forall_forall. intros [[[scale start] cfld] dfld] Hin.
  apply zip4_in_third in Hin. simpl in Hin. destruct Hin as [Hc Hd].
  apply calib_field_column in Hc. apply detector_field_column in Hd.
  destruct (getitem_of_column _ _ Hwf Hd) as (d & d0 & Hget & Hd0 & _).
  destruct (getitem_of_column _ _ Hwf Hc) as (pre & _ & Hpre & _ & _).
  simpl. exists d, d0, pre. repeat split; assumption.
Qed.

Lemma select_cols_ok (df : DataFrame) (labels : list string) :
  (forall c, List.In c labels -> List.In c (DF.columns df)) ->
  exists cs, DF.select_cols df labels = ok cs /\ map fst cs = labels.
Proof.
  induction labels as [|c labels IH]; intros H.
  - exists []. split; reflexivity.
  - destruct (assoc_of_column c (df_cols df) (H c (or_introl eq_refl))) as (s & Hs & _).
    destruct IH as (cs & Hcs & Hmap).
    { intros c' Hc'. apply H. right. exact Hc'. }
    exists ((c, s) :: cs). simpl. unfold DF.getitem. rewrite Hs. simpl.
    rewrite Hcs. simpl. rewrite Hmap. split; reflexivity.
Qed.

(** ** C7: the correction table *)


Lemma ex_scan_well_formed : well_formed ex_scan.
Proof.
  split; [discriminate|]. repeat constructor.
Qed.


(** ** C4: validation of the counts comes before every request *)

(** C4 (as the code has it): when the number of calibration motors, or the
    number of calibration fields in effect (the given ones, or the motors'
    names when none are given), differs from the number of detector fields,
    [calibration_scan] is the plan that raises [ValueError] and nothing
    else: against every engine its run has an empty trace. The same holds
    of [calibration_centroid_scan] when motors and fields in effect differ
    in number. *)
Theorem C4_count_mismatch_raises_before_requests (detector : Detector)
  (detector_fields : list string) (motor : Motor) (motor_fields : list string)
  (calib_motors : list Motor) (calib_fields : list string) (start stop : Qc)
  (steps : nat) (sp : ScanParams) :
  length calib_motors <> length detector_fields \/
  length (default_calib_fields calib_fields calib_motors) <> length detector_fields ->
  calibration_scan detector detector_fields motor motor_fields calib_motors
    calib_fields start stop steps sp = Raise ValueError /\
  (forall eng,
      run eng (calibration_scan detector detector_fields motor motor_fields
                 calib_motors calib_fields start stop steps sp)
      = ([], raise ValueError)) /\
  (length calib_motors <> length (default_calib_fields calib_fields calib_motors) ->
   forall args kwargs eng,
     run eng (calibration_centroid_scan detector motor calib_motors start stop steps
                calib_fields args kwargs)
     = ([], raise ValueError)).
Proof.
  intros H.
  assert (Heq : calibration_scan detector detector_fields motor motor_fields
                  calib_motors calib_fields start stop steps sp = Raise ValueError).
  { unfold calibration_scan.
    destruct (steps <=? s_window_length sp)%nat; [reflexivity|].
    destruct (Nat.eqb_spec (length calib_motors) (length detector_fields)) as [Hm|Hm];
      simpl; [|reflexivity].
    destruct (Nat.eqb_spec (length (default_calib_fields calib_fields calib_motors))
                           (length detector_fields)) as [Hf|Hf];
      simpl; [|reflexivity].
    exfalso. destruct H; contradiction. }
  split; [exact Heq|]. split.
  - intros eng. rewrite Heq. reflexivity.
  - intros Hne args kwargs eng. unfold calibration_centroid_scan.
    destruct (Nat.eqb_spec (length calib_motors)
                (length (default_calib_fields calib_fields calib_motors))) as [Hm|Hm];
      simpl; [contradiction|reflexivity].
Qed.

Lemma C4_count_mismatch_witness :
  run ex_engine (calibration_scan ex_detector ["det_x"; "det_y"] ex_motor ["delay"]
                   [ex_m1] ["m1"] (qz 0) (qz 10) 11 ex_scan_params)
  = ([], raise ValueError).
Proof.
  apply (C4_count_mismatch_raises_before_requests ex_detector ["det_x"; "det_y"]
           ex_motor ["delay"] [ex_m1] ["m1"] (qz 0) (qz 10) 11 ex_scan_params).
  left. simpl. lia.
Defined.

(** C4 (as the claim has it) fails: an empty list of calibration fields has
    a length other than the two detector fields, yet the motors' names
    stand in for it, no [ValueError] is raised at validation, and the scan
    is requested. *)
Lemma C4_empty_fields_default_to_names :
  length (@nil string) <> length ["det_x"; "det_y"] /\
  calibration_scan ex_detector ["det_x"; "det_y"] ex_motor ["delay"]
    [ex_m1; ex_m2] [] (qz 0) (qz 10) 11 ex_scan_params <> Raise ValueError /\
  existsb is_scan_request
    (trace ex_engine 0
       (calibration_scan ex_detector ["det_x"; "det_y"] ex_motor ["delay"]
          [ex_m1; ex_m2] [] (qz 0) (qz 10) 11 ex_scan_params)) = true.
Proof.
  split; [simpl; lia|]. split.
  - vm_compute. discriminate.
  - vm_compute. reflexivity.
Qed.

(** ** C8: declining the overwrite *)



(** ** Runs of composed plans *)

Lemma calls_in_app (a b : list event) :
  calls_in (a ++ b) = (calls_in a + calls_in b)%nat.
Proof.
  induction a as [|[m|X c] a IH]; simpl; [reflexivity|exact IH|].
  rewrite IH. reflexivity.
Qed.

Lemma run_bind {A B} (eng : engine) (p : plan A) (f : A -> plan B) :
  forall n,
    run_from eng n (Plan.bind p f)
    = match outcome eng n p with
      | inl e => (trace eng n p, inl e)
      | inr a =>
          (trace eng n p ++ trace eng (n + calls_in (trace eng n p)) (f a),
           outcome eng (n + calls_in (trace eng n p)) (f a))
      end.
Proof.
  induction p as [a|e|m k IH|X c k IH]; intros n.
  - simpl. rewrite Nat.add_0_r. unfold trace, outcome.
    destruct (run_from eng n (f a)). reflexivity.
  - reflexivity.
  - cbn [Plan.bind run_from]. rewrite IH, outcome_Emit, trace_Emit.
    destruct (outcome eng n k); reflexivity.
  - cbn [Plan.bind run_from]. rewrite IH, outcome_Call, trace_Call.
    destruct (outcome eng (S n) (k (eng X c n))); [reflexivity|].
    simpl. rewrite Nat.add_succ_r. reflexivity.
Qed.

Lemma run_try_finally {A} (eng : engine) (p : plan A) (fin : plan unit) :
  forall n,
    run_from eng n (Plan.try_finally p fin)
    = (trace eng n p ++ trace eng (n + calls_in (trace eng n p)) fin,
       match outcome eng (n + calls_in (trace eng n p)) fin with
       | inl e => inl e
       | inr _ => outcome eng n p
       end).
Proof.
  induction p as [a|e|m k IH|X c k IH]; intros n.
  - cbn [Plan.try_finally]. rewrite run_bind. simpl. rewrite Nat.add_0_r.
    destruct (outcome eng n fin); simpl; [reflexivity|].
    rewrite app_nil_r. reflexivity.
  - cbn [Plan.try_finally]. rewrite run_bind. simpl. rewrite Nat.add_0_r.
    destruct (outcome eng n fin); simpl; [reflexivity|].
    rewrite app_nil_r. reflexivity.
  - cbn [Plan.try_finally run_from]. rewrite IH, outcome_Emit, trace_Emit.
    reflexivity.
  - cbn [Plan.try_finally run_from]. rewrite IH, outcome_Call, trace_Call.
    simpl. rewrite Nat.add_succ_r. reflexivity.
Qed.

Lemma trace_bind {A B} (eng : engine) (n : nat) (p : plan A) (f : A -> plan B) :
  trace eng n (Plan.bind p f)
  = trace eng n p ++
    match outcome eng n p with
    | inl _ => []
    | inr a => trace eng (n + calls_in (trace eng n p)) (f a)
    end.
Proof.
  unfold trace at 1. rewrite run_bind.
  destruct (outcome eng n p); simpl; [rewrite app_nil_r|]; reflexivity.
Qed.

Lemma outcome_bind {A B} (eng : engine) (n : nat) (p : plan A) (f : A -> plan B) :
  outcome eng n (Plan.bind p f)
  = match outcome eng n p with
    | inl e => inl e
    | inr a => outcome eng (n + calls_in (trace eng n p)) (f a)
    end.
Proof.
  unfold outcome at 1. rewrite run_bind.
  destruct (outcome eng n p); reflexivity.
Qed.

Lemma trace_try_finally {A} (eng : engine) (n : nat) (p : plan A) (fin : plan unit) :
  trace eng n (Plan.try_finally p fin)
  = trace eng n p ++ trace eng (n + calls_in (trace eng n p)) fin.
Proof. unfold trace at 1. rewrite run_try_finally. reflexivity. Qed.

Lemma outcome_try_finally {A} (eng : engine) (n : nat) (p : plan A) (fin : plan unit) :
  outcome eng n (Plan.try_finally p fin)
  = match outcome eng (n + calls_in (trace eng n p)) fin with
    | inl e => inl e
    | inr _ => outcome eng n p
    end.
Proof. unfold outcome at 1. rewrite run_try_finally. reflexivity. Qed.

(** ** Restoration *)

Lemma run_set_all (eng : engine) (n : nat) (init : list (Motor * Qc)) (group : string) :
  run_from eng n (set_all init group)
  = (map (fun mp => EvMsg (AbsSet (fst mp) (snd mp) group)) init, ok tt).
Proof.
  induction init as [|[m pos] init IH]; simpl; [reflexivity|].
  rewrite IH. reflexivity.
Qed.

Lemma run_restore (short_uid : string -> string) (eng : engine) (n : nat)
  (init : list (Motor * Qc)) :
  run_from eng n (restore short_uid init)
  = (restore_events init (short_uid "set"), ok tt).
Proof.
  unfold restore. rewrite run_bind.
  unfold outcome, trace. rewrite run_set_all. simpl.
  unfold restore_events. reflexivity.
Qed.

Lemma calls_in_restore_events (init : list (Motor * Qc)) (group : string) :
  calls_in (restore_events init group) = 0%nat.
Proof.
  unfold restore_events. rewrite calls_in_app. simpl.
  induction init as [|mp init IH]; simpl; [reflexivity|exact IH].
Qed.

(** ** The snapshot holds every motor *)

Lemma dict_set_keeps (d : list (Motor * Qc)) (m m' : Motor) (pos : Qc) :
  (exists p, List.In (m', p) d) -> exists p, List.In (m', p) (dict_set d m pos).
Proof.
  induction d as [|[m0 p0] d IH]; intros [p Hp]; simpl in *; [contradiction|].
  destruct (bool_decide (m = m0)) eqn:E.
  - destruct Hp as [Heq|Hp].
    + injection Heq as -> ->. exists pos. left. reflexivity.
    + exists p. right. exact Hp.
  - destruct Hp as [Heq|Hp].
    + exists p. left. exact Heq.
    + destruct (IH (ex_intro _ p Hp)) as [p' Hp'].
      exists p'. right. exact Hp'.
Qed.

Lemma dict_set_has (d : list (Motor * Qc)) (m : Motor) (pos : Qc) :
  List.In (m, pos) (dict_set d m pos).
Proof.
  induction d as [|[m0 p0] d IH]; simpl; [left; reflexivity|].
  destruct (bool_decide (m = m0)) eqn:E.
  - apply bool_decide_eq_true in E. subst m0. left. reflexivity.
  - right. exact IH.
Qed.

Lemma snapshot_covers (eng : engine) (ms : list Motor) :
  forall n d init,
    outcome eng n (snapshot ms d) = ok init ->
    forall m, (List.In m ms \/ exists p, List.In (m, p) d) ->
              exists pos, List.In (m, pos) init.
Proof.
  induction ms as [|m0 ms IH]; intros n d init Hrun m Hm.
  - simpl in Hrun. injection Hrun as <-. destruct Hm as [[]|Hm]. exact Hm.
  - cbn [snapshot] in Hrun. unfold Plan.call_ in Hrun. simpl in Hrun.
    rewrite outcome_Call in Hrun.
    destruct (eng Qc (Position m0) n) as [e|pos]; simpl in Hrun; [discriminate|].
    apply (IH _ _ _ Hrun).
    destruct Hm as [[<-|Hm]|Hm].
    + right. exists pos. apply dict_set_has.
    + left. exact Hm.
    + right. apply dict_set_keeps. exact Hm.
Qed.

(** ** The run of [scan_and_commit] *)

Section ScanAndCommit.

Variable short_uid : string -> string.
Variable pipeline : plan (DataFrame * DataFrame * list Qc * list Qc).
Variable motor : Motor.
Variable calib_motors : list Motor.
Variable eng : engine.
Variable n : nat.

Lemma run_scan_and_commit (rts : bool) (init : list (Motor * Qc)) :
  outcome eng n (snapshot_plan motor calib_motors rts) = ok init ->
  let n1 := (n + calls_in (trace eng n (snapshot_plan motor calib_motors rts)))%nat in
  let n2 := (n1 + calls_in (trace eng n1 pipeline))%nat in
  run_from eng n (scan_and_commit short_uid (Some rts) pipeline motor calib_motors)
  = (trace eng n (snapshot_plan motor calib_motors rts) ++ trace eng n1 pipeline ++
     (if rts then restore_events init (short_uid "set") else []) ++
     commit_events motor calib_motors (outcome eng n1 pipeline),
     match outcome eng n1 pipeline with
     | inl e => inl e
     | inr res =>
         eng unit (Configure motor (commit_of motor calib_motors res)) n2
     end).
Proof.
  intros Hsnap n1 n2. unfold scan_and_commit. fold (snapshot_plan motor calib_motors rts).
  rewrite run_bind, Hsnap. fold n1. unfold ok at 1. cbv beta iota.
  set (fin := if rts then restore short_uid init else Ret tt).
  assert (Hfin_t : forall k, trace eng k fin
                 = if rts then restore_events init (short_uid "set") else []).
  { intros k. unfold fin, trace. destruct rts; [rewrite run_restore|]; reflexivity. }
  assert (Hfin_o : forall k, outcome eng k fin = ok tt).
  { intros k. unfold fin, outcome. destruct rts; [rewrite run_restore|]; reflexivity. }
  assert (Hcalls : calls_in (if rts then restore_events init (short_uid "set") else [])
                   = 0%nat).
  { destruct rts; [apply calls_in_restore_events|reflexivity]. }
  rewrite trace_bind, outcome_bind, trace_try_finally, outcome_try_finally.
  rewrite Hfin_t, Hfin_o. unfold ok at 1 2. cbv beta iota.
  destruct (outcome eng n1 pipeline) as [e|[[[df_calib df_scan] scaling] start_pos]] eqn:Hp.
  - simpl. rewrite !app_nil_r. reflexivity.
  - rewrite calls_in_app, Hcalls, Nat.add_0_r. fold n2.
    unfold Plan.call_. rewrite trace_Call, outcome_Call. simpl.
    f_equal.
    + destruct (eng unit _ n2) as [e|[]]; simpl; rewrite <- !app_assoc; reflexivity.
    + destruct (eng unit _ n2) as [e|[]]; reflexivity.
Qed.

End ScanAndCommit.

(** ** C1: restoration *)

(** With the name [return_to_start] unbound, as in the module itself, the
    lookup of line 48 raises before any motor is read or moved. *)
Lemma unbound_return_to_start_raises (short_uid : string -> string)
  (pipeline : plan (DataFrame * DataFrame * list Qc * list Qc))
  (motor : Motor) (calib_motors : list Motor) :
  scan_and_commit short_uid None pipeline motor calib_motors = Raise NameError.
Proof. reflexivity. Qed.




(** ** C6: the commit *)

Lemma restore_events_no_commit (init : list (Motor * Qc)) (group : string) :
  existsb is_commit_request (restore_events init group) = false.
Proof.
  unfold restore_events. rewrite existsb_app. simpl. rewrite orb_false_r.
  induction init as [|mp init IH]; [reflexivity|exact IH].
Qed.




(** ** C5: a failed walk is recovered within its channel *)

Section FailedWalk.

Variable df_scan : DataFrame.
Variable detector : Detector.
Variable prm : WalkParams.
Variable system : list device.
Variable eng : engine.

Variables (i n : nat) (dfld cfld : string) (cmotor : Motor).
Variable rest : list (string * string * Motor).
Variables scaling start_positions : list Qc.

Variables (inp_system : list device) (reads1 reads2 : list (string * Qc)).
Variables (motor_start dfld_start motor_end dfld_end target pos : Qc).
Variables (col : Series) (idx_max : nat).
Variables (gradient : option Qc) (first_step tolerance : Qc) (max_steps : nat).
Variable e : exn.

Local Abbreviation measure := (measure_request detector prm system).
Local Abbreviation walk :=
  (walk_request detector prm cmotor inp_system dfld cfld target gradient
     first_step tolerance max_steps).

Hypothesis Hremove : Py.remove (DevMotor cmotor) system = ok inp_system.
Hypothesis Hreads1 : eng _ measure n = ok reads1.
Hypothesis Hmotor_start : Py.dict_get reads1 cfld = ok motor_start.
Hypothesis Hdfld_start : Py.dict_get reads1 dfld = ok dfld_start.
Hypothesis Hcol : DF.getitem df_scan dfld = ok col.
Hypothesis Hidx : farthest_row col dfld_start = ok idx_max.
Hypothesis Htarget : DF.iloc_at df_scan idx_max dfld = ok target.
Hypothesis Hgradient : Py.index (p_gradients prm) i = ok gradient.
Hypothesis Hfirst_step : Py.index (p_first_step prm) i = ok first_step.
Hypothesis Htolerance : Py.index (p_tolerance prm) i = ok tolerance.
Hypothesis Hmax_steps : Py.index (p_max_steps prm) i = ok max_steps.
Hypothesis Hkwargs : duplicate_keyword walk_keywords (p_kwargs prm) = false.
(** the walk fails with one of the two handled exceptions *)
Hypothesis Hwalk : eng _ walk (S n) = inl e.
Hypothesis Hrecoverable : recoverable e.
(** the position quoted in the warning, and the reads after the walk *)
Hypothesis Hpos : eng _ (Position cmotor) (S (S n)) = ok pos.
Hypothesis Hreads2 : eng _ measure (S (S (S n))) = ok reads2.
Hypothesis Hmotor_end : Py.dict_get reads2 cfld = ok motor_end.
Hypothesis Hdfld_end : Py.dict_get reads2 dfld = ok dfld_end.
Hypothesis Hsignal : Py.is_zero (dfld_end - dfld_start)%Qc = false.

Local Abbreviation events := (failed_walk_events measure walk cmotor e).
Local Abbreviation scale :=
  (recovered_scale motor_start dfld_start motor_end dfld_end).

Lemma run_failed_walk_channel :
  run_from eng n
    (walk_channel df_scan detector prm system i dfld cfld cmotor
       scaling start_positions)
  = (events,
     ok (scaling ++ [scale], start_positions ++ [motor_start])).
Proof.
  unfold walk_channel, walk_begin. rewrite Hremove. simpl.
  fold measure. rewrite Hreads1. simpl.
  rewrite Hmotor_start, Hdfld_start, Hcol. simpl.
  rewrite Hidx. simpl.
  unfold walk_attempt. rewrite Htarget. simpl.
  rewrite Hgradient, Hfirst_step, Htolerance, Hmax_steps. simpl.
  rewrite Hkwargs. simpl. fold walk. rewrite Hwalk.
  unfold failed_walk_events.
  destruct Hrecoverable as [-> | ->]; simpl;
    rewrite Hpos; simpl; unfold walk_finish; simpl;
    fold measure; rewrite Hreads2; simpl;
    rewrite Hmotor_end, Hdfld_end; simpl;
    unfold Py.div; rewrite Hsignal; reflexivity.
Qed.


End FailedWalk.


(** ** C10: the channels are rediscovered from the column labels *)

Lemma zip3_nth {A B C} (a : list A) (b : list B) (c : list C)
  (k : nat) (x : A) (y : B) (z : C) :
  nth_error (zip3 a b c) k = Some (x, y, z) <->
  nth_error a k = Some x /\ nth_error b k = Some y /\ nth_error c k = Some z.
Proof.
  revert b c k.
  induction a as [|a0 a IH]; intros [|b0 b] [|c0 c] [|k]; simpl;
    try (split; [discriminate|intros (H1 & H2 & H3); discriminate]).
  - split.
    + intros H. injection H as <- <- <-. repeat split.
    + intros (H1 & H2 & H3). congruence.
  - apply IH.
Qed.

Lemma filter_app_last {A} (f : A -> bool) (l : list A) (x : A) :
  List.filter f (l ++ [x]) = List.filter f l ++ (if f x then [x] else []).
Proof.
  induction l as [|a l IH]; simpl.
  - destruct (f x); reflexivity.
  - rewrite IH. destruct (f a); reflexivity.
Qed.


(** a column that fits both conventions adds one detector field and one
    channel: the counts stay equal and the walk takes the column as a
    channel of its own *)
Lemma extraneous_column_becomes_channel :
  let df := add_column ex_scan "det_bg_pre" (map qz [1; 2; 3]%Z) in
  discover_detector_fields df ex_detector = ["det_x"; "det_y"; "det_bg_pre"] /\
  discover_calib_fields df = ["m1"; "m2"; "det_bg"].
Proof. split; reflexivity. Qed.

(** ** C9: the table builder is a function of the contents of its inputs *)

Lemma heap_bind_getitem {B} (h : heap) (l : nat) (df : DataFrame) (c : string)
  (f : Series -> HeapM B) :
  h !! l = Some df ->
  Heap.bind (Heap.getitem l c) f h
  = match DF.getitem df c with
    | inl e => (inl e, h)
    | inr s => f s h
    end.
Proof.
  intros H. unfold Heap.getitem, Heap.bind, Heap.read, Heap.lift. cbv beta.
  rewrite H. unfold ok. destruct (DF.getitem df c); reflexivity.
Qed.

Lemma heap_bind_lift {A B} (h : heap) (r : result A) (f : A -> HeapM B) :
  Heap.bind (Heap.lift r) f h
  = match r with
    | inl e => (inl e, h)
    | inr a => f a h
    end.
Proof. unfold Heap.bind, Heap.lift. destruct r; reflexivity. Qed.

Lemma heap_setitem (h : heap) (l : nat) (df : DataFrame) (c : string) (s : Series) :
  h !! l = Some df ->
  Heap.setitem l c s h = (ok tt, <[l := DF.setitem df c s]> h).
Proof.
  intros H. unfold Heap.setitem, Heap.bind, Heap.read, Heap.write. cbv beta.
  rewrite H. reflexivity.
Qed.

Lemma heap_bind_setitem {B} (h : heap) (l : nat) (df : DataFrame) (c : string)
  (s : Series) (f : unit -> HeapM B) :
  h !! l = Some df ->
  Heap.bind (Heap.setitem l c s) f h = f tt (<[l := DF.setitem df c s]> h).
Proof.
  intros H. unfold Heap.bind at 1. rewrite (heap_setitem _ _ _ _ _ H). reflexivity.
Qed.

Lemma heap_bind_read {B} (h : heap) (l : nat) (df : DataFrame)
  (f : DataFrame -> HeapM B) :
  h !! l = Some df -> Heap.bind (Heap.read l) f h = f df h.
Proof. intros H. unfold Heap.bind, Heap.read. cbv beta. rewrite H. reflexivity. Qed.

Lemma heap_bind_alloc {B} (h : heap) (df : DataFrame) (f : nat -> HeapM B) :
  Heap.bind (Heap.alloc df) f h = f (length h) (h ++ [df]).
Proof. reflexivity. Qed.

Lemma correction_step_h_spec (h : heap) (l_scan l_corr : nat) (df acc : DataFrame)
  (ch : Qc * Qc * string * string) :
  h !! l_scan = Some df ->
  h !! l_corr = Some acc ->
  l_scan <> l_corr ->
  exists acc',
    correction_step_h l_scan l_corr ch h
    = (forget (correction_step df acc ch), <[l_corr := acc']> h) /\
    (forall r, correction_step df acc ch = ok r -> acc' = r).
Proof.
  intros Hs Hc Hne. destruct ch as [[[scale start] cfld] dfld].
  assert (Hlt : (l_corr < length h)%nat) by (eapply lookup_lt_Some; eauto).
  assert (Hne' : l_corr <> l_scan) by (intros Heq; apply Hne; symmetry; exact Heq).
  unfold correction_step_h, correction_step, rbind.
  rewrite (heap_bind_getitem _ _ _ _ _ Hs).
  destruct (DF.getitem df dfld) as [e|d] eqn:Hd.
  { exists acc. rewrite list_insert_id by exact Hc. split; [reflexivity|discriminate]. }
  rewrite (heap_bind_getitem _ _ _ _ _ Hs), Hd, heap_bind_lift.
  destruct (DF.iloc d 0) as [e|d0] eqn:Hd0.
  { exists acc. rewrite list_insert_id by exact Hc. split; [reflexivity|discriminate]. }
  rewrite (heap_bind_setitem _ _ _ _ _ _ Hc).
  set (acc1 := DF.setitem acc (cfld ++ "_post_abs") (abs_correction start scale d d0)).
  assert (Hc1 : <[l_corr := acc1]> h !! l_corr = Some acc1)
    by (apply list_lookup_insert_eq; exact Hlt).
  assert (Hs1 : <[l_corr := acc1]> h !! l_scan = Some df)
    by (rewrite list_lookup_insert_ne by exact Hne'; exact Hs).
  assert (Hg : DF.getitem acc1 (cfld ++ "_post_abs")
               = inr (abs_correction start scale d d0))
    by apply getitem_setitem_same.
  rewrite (heap_bind_getitem _ _ _ _ _ Hc1), !Hg.
  rewrite (heap_bind_getitem _ _ _ _ _ Hs1).
  destruct (DF.getitem df (cfld ++ "_pre")) as [e|pre] eqn:Hpre.
  { exists acc1. split; [reflexivity|discriminate]. }
  rewrite (heap_setitem _ _ _ _ _ Hc1), list_insert_insert_eq.
  eexists. split; [reflexivity|]. intros r Hr. injection Hr as <-. reflexivity.
Qed.

Lemma correction_loop_h_spec (l_scan l_corr : nat) (df : DataFrame)
  (chs : list (Qc * Qc * string * string)) :
  l_scan <> l_corr ->
  forall (h : heap) (acc : DataFrame),
    h !! l_scan = Some df ->
    h !! l_corr = Some acc ->
    exists acc',
      correction_loop_h l_scan l_corr chs h
      = (forget (correction_loop df acc chs), <[l_corr := acc']> h) /\
      (forall r, correction_loop df acc chs = ok r -> acc' = r).
Proof.
  intros Hne. induction chs as [|ch chs IH]; intros h acc Hs Hc.
  - exists acc. simpl. unfold Heap.lift. rewrite list_insert_id by exact Hc.
    split; [reflexivity|]. intros r Hr. injection Hr as <-. reflexivity.
  - assert (Hlt : (l_corr < length h)%nat) by (eapply lookup_lt_Some; eauto).
    destruct (correction_step_h_spec h l_scan l_corr df acc ch Hs Hc Hne)
      as (acc1 & Hstep & Hacc1).
    cbn [correction_loop_h correction_loop]. unfold Heap.bind at 1. rewrite Hstep.
    destruct (correction_step df acc ch) as [e|r1] eqn:Hpure; simpl.
    + exists acc1. split; [reflexivity|discriminate].
    + rewrite (Hacc1 r1 eq_refl).
      destruct (IH (<[l_corr := r1]> h) r1) as (acc2 & Hloop & Hacc2).
      * rewrite list_lookup_insert_ne by (intros Heq; apply Hne; symmetry; exact Heq).
        exact Hs.
      * apply list_lookup_insert_eq. exact Hlt.
      * exists acc2. rewrite Hloop, list_insert_insert_eq. split; [reflexivity|exact Hacc2].
Qed.

Lemma build_calibration_df_h_spec (h : heap) (l_scan : nat) (df : DataFrame)
  (scaling start_positions : list Qc) (detector : Detector) :
  h !! l_scan = Some df ->
  exists r h',
    build_calibration_df_h l_scan scaling start_positions detector h = (r, h') /\
    (forall l, (l < length h)%nat -> h' !! l = h !! l) /\
    result_table (r, h') = build_calibration_df df scaling start_positions detector.
Proof.
  intros Hs.
  assert (Hlt : (l_scan < length h)%nat) by (eapply lookup_lt_Some; eauto).
  unfold build_calibration_df_h, build_calibration_df.
  rewrite (heap_bind_read _ _ _ _ Hs).
  destruct (negb (length (discover_detector_fields df detector)
                  =? length (discover_calib_fields df))%nat).
  { exists (inl ValueError), h. repeat split. }
  rewrite heap_bind_alloc.
  set (h1 := h ++ [DF.empty (df_index df)]).
  assert (Hs1 : h1 !! l_scan = Some df).
  { unfold h1. rewrite lookup_app_l by exact Hlt. exact Hs. }
  assert (Hc1 : h1 !! length h = Some (DF.empty (df_index df))).
  { unfold h1. apply list_lookup_middle. reflexivity. }
  assert (Hne : l_scan <> length h) by lia.
  destruct (correction_loop_h_spec l_scan (length h) df
              (zip4 scaling start_positions (discover_calib_fields df)
                    (discover_detector_fields df detector))
              Hne h1 _ Hs1 Hc1) as (acc' & Hloop & Hacc).
  unfold Heap.bind at 1. rewrite Hloop.
  assert (Hframe1 : forall x l, (l < length h)%nat -> <[length h := x]> h1 !! l = h !! l).
  { intros x l Hl. rewrite list_lookup_insert_ne by lia.
    unfold h1. apply lookup_app_l. exact Hl. }
  destruct (correction_loop df (DF.empty (df_index df)) _) as [e|corr] eqn:Hpure.
  { exists (inl e), (<[length h := acc']> h1). repeat split. apply Hframe1. }
  assert (acc' = corr) by (apply Hacc; reflexivity). subst acc'.
  cbn [forget ok rbind].
  set (h2 := <[length h := corr]> h1).
  assert (Hframe2 : forall l, (l < length h)%nat -> h2 !! l = h !! l)
    by (intros l Hl; apply Hframe1; exact Hl).
  assert (Hs2 : h2 !! l_scan = Some df) by (rewrite Hframe2 by exact Hlt; exact Hs).
  assert (Hlen2 : length h2 = S (length h)).
  { unfold h2, h1. rewrite length_insert, length_app. simpl. lia. }
  assert (Hc2 : h2 !! length h = Some corr).
  { unfold h2. apply list_lookup_insert_eq. unfold h1. rewrite length_app. simpl. lia. }
  rewrite (heap_bind_read _ _ _ _ Hs2), heap_bind_lift.
  destruct (DF.select df _) as [e|df_motor] eqn:Hsel.
  { exists (inl e), h2. repeat split. exact Hframe2. }
  rewrite heap_bind_alloc.
  set (h3 := h2 ++ [df_motor]).
  assert (Hm3 : h3 !! length h2 = Some df_motor).
  { unfold h3. apply list_lookup_middle. reflexivity. }
  assert (Hc3 : h3 !! length h = Some corr).
  { unfold h3. rewrite lookup_app_l by lia. exact Hc2. }
  rewrite (heap_bind_read _ _ _ _ Hm3), (heap_bind_read _ _ _ _ Hc3).
  unfold Heap.alloc.
  eexists _, _. split; [reflexivity|]. split.
  - intros l Hl. rewrite lookup_app_l.
    + unfold h3. rewrite lookup_app_l by lia. apply Hframe2. exact Hl.
    + unfold h3. rewrite length_app. lia.
  - unfold result_table, ok. cbv beta iota.
    rewrite list_lookup_middle by reflexivity. reflexivity.
Qed.

(** C9: [build_calibration_df] run on a store leaves every object that was
    there before the call as it was (the scan table among them), and the
    table it delivers is the value of one function of the contents of the
    scan table, the scales, the start positions and the detector: two calls
    on equal inputs, in whatever stores, deliver equal tables. In a plan it
    is a computation between requests and adds no event to a run. *)
Theorem C9_table_builder_is_pure (h : heap) (l_scan : nat) (df : DataFrame)
  (scaling start_positions : list Qc) (detector : Detector) :
  h !! l_scan = Some df ->
  (forall l, (l < length h)%nat ->
     snd (build_calibration_df_h l_scan scaling start_positions detector h) !! l
     = h !! l) /\
  result_table (build_calibration_df_h l_scan scaling start_positions detector h)
  = build_calibration_df df scaling start_positions detector /\
  (forall (h2 : heap) (l2 : nat),
      h2 !! l2 = Some df ->
      result_table (build_calibration_df_h l2 scaling start_positions detector h2)
      = result_table (build_calibration_df_h l_scan scaling start_positions detector h)) /\
  (forall eng n,
      trace eng n
        (Plan.lift (build_calibration_df df scaling start_positions detector)) = []).
Proof.
  intros Hs.
  destruct (build_calibration_df_h_spec h l_scan df scaling start_positions detector Hs)
    as (r & h' & Hrun & Hframe & Htable).
  split; [|split; [|split]].
  - intros l Hl. rewrite Hrun. apply Hframe. exact Hl.
  - rewrite Hrun. exact Htable.
  - intros h2 l2 Hs2.
    destruct (build_calibration_df_h_spec h2 l2 df scaling start_positions detector Hs2)
      as (r2 & h2' & Hrun2 & _ & Htable2).
    rewrite Hrun, Hrun2, Htable, Htable2. reflexivity.
  - intros eng n.
    destruct (build_calibration_df df scaling start_positions detector); reflexivity.
Qed.

Lemma C9_table_builder_witness :
  snd (build_calibration_df_h 0 [qz 2; qz 3] [qz 1000; qz 2000] ex_detector [ex_scan])
    !! 0%nat
  = Some ex_scan.
Proof.
  destruct (C9_table_builder_is_pure [ex_scan] 0 ex_scan [qz 2; qz 3]
              [qz 1000; qz 2000] ex_detector) as (H & _).
  - reflexivity.
  - apply H. simpl. lia.
Defined.

(** ** C3: no change of the detector value over a walk *)

Section DegenerateSignal.

Variable df_scan : DataFrame.
Variable detector : Detector.
Variable prm : WalkParams.
Variable system : list device.
Variable eng : engine.

Variables (i n : nat) (dfld cfld : string) (cmotor : Motor).
Variable rest : list (string * string * Motor).
Variables scaling start_positions : list Qc.
Variables (reads : list (string * Qc)) (motor_start dfld_start motor_end : Qc).

(** the reads before the walk and the walk (or its handler) went through *)
Hypothesis Hbegin :
  outcome eng n (walk_begin df_scan detector prm system i dfld cfld cmotor)
  = ok (motor_start, dfld_start).

Local Abbreviation after_walk :=
  (calls_after eng n (walk_begin df_scan detector prm system i dfld cfld cmotor)).

(** the detector reads after the walk what it read before it *)
Hypothesis Hreads : eng _ (measure_request detector prm system) after_walk = ok reads.
Hypothesis Hmotor_end : Py.dict_get reads cfld = ok motor_end.
Hypothesis Hdfld_end : Py.dict_get reads dfld = ok dfld_start.

Lemma is_zero_diff (x : Qc) : Py.is_zero (x - x)%Qc = true.
Proof.
  unfold Py.is_zero. replace (x - x)%Qc with (Q2Qc 0) by ring. reflexivity.
Qed.

Lemma run_degenerate_finish :
  run_from eng after_walk
    (walk_finish detector prm system dfld cfld motor_start dfld_start
       scaling start_positions)
  = ([EvCall (measure_request detector prm system)], inl ZeroDivisionError).
Proof.
  unfold walk_finish, Plan.call_. simpl.
  fold (measure_request detector prm system). rewrite Hreads. simpl.
  rewrite Hmotor_end, Hdfld_end. simpl.
  unfold Py.div. rewrite is_zero_diff. reflexivity.
Qed.


End DegenerateSignal.



(** ** The pipeline as the module composes it *)

(** X19: the call of line 183 hands [motor] over as third positional
    argument, so [calib_motors] fills the slot of [first_step], which the
    call gives by keyword as well: the arguments cannot be bound. Whatever
    the engine answers, [calibration_scan] ends with an exception. *)
Lemma calibration_scan_always_raises (detector : Detector)
  (detector_fields : list string) (motor : Motor) (motor_fields : list string)
  (calib_motors : list Motor) (calib_fields : list string) (start stop : Qc)
  (steps : nat) (sp : ScanParams) (eng : engine) (n : nat) :
  exists e,
    outcome eng n
      (calibration_scan detector detector_fields motor motor_fields calib_motors
         calib_fields start stop steps sp) = inl e.
Proof.
  unfold calibration_scan.
  destruct (steps <=? s_window_length sp)%nat; [eexists; reflexivity|].
  destruct (negb (length calib_motors =? length detector_fields)%nat);
    [eexists; reflexivity|].
  destruct (negb (length (default_calib_fields calib_fields calib_motors)
                  =? length detector_fields)%nat); [eexists; reflexivity|].
  unfold Plan.emit. cbn [Plan.bind]. rewrite outcome_Emit, outcome_bind.
  destruct (outcome eng n (calibration_centroid_scan _ _ _ _ _ _ _ _ _))
    as [e|df_scan]; [eexists; reflexivity|].
  rewrite outcome_bind. unfold bind_call. simpl. eexists. reflexivity.
Qed.

Example pipeline_on_example_devices :
  outcome ex_engine 0 ex_pipeline = inl TypeError /\
  existsb is_scan_request (trace ex_engine 0 ex_pipeline) = true.
Proof. vm_compute. split; reflexivity. Qed.

(** * Further properties of the module *)

(** ** [calibration_scan]: what a run reaches *)

Lemma default_calib_fields_idem (calib_fields : list string) (calib_motors : list Motor) :
  default_calib_fields (default_calib_fields calib_fields calib_motors) calib_motors
  = default_calib_fields calib_fields calib_motors.
Proof.
  destruct calib_fields as [|c cs]; simpl; [|reflexivity].
  destruct calib_motors; reflexivity.
Qed.

(** X1: when the step count exceeds the filter window, the counts agree and
    the engine delivers the scan, [calibration_scan] logs, requests the scan
    with the fields in effect, and then ends with [TypeError] at the call of
    line 183: neither a walk nor a read is ever requested. *)
Theorem X1_calibration_scan_stops_after_the_scan (detector : Detector)
  (detector_fields : list string) (motor : Motor) (motor_fields : list string)
  (calib_motors : list Motor) (calib_fields : list string) (start stop : Qc)
  (steps : nat) (sp : ScanParams) (eng : engine) (n : nat) (df : DataFrame) :
  (s_window_length sp < steps)%nat ->
  length calib_motors = length detector_fields ->
  length (default_calib_fields calib_fields calib_motors) = length detector_fields ->
  eng _ (scan_request detector detector_fields motor motor_fields calib_motors
           calib_fields start stop steps sp) n = ok df ->
  run_from eng n
    (calibration_scan detector detector_fields motor motor_fields calib_motors
       calib_fields start stop steps sp)
  = ([EvMsg (Log Debug "Beginning calibration scan");
      EvCall (scan_request detector detector_fields motor motor_fields calib_motors
                calib_fields start stop steps sp)],
     inl TypeError).
Proof.
  intros Hsteps Hm Hf Hscan.
  unfold calibration_scan.
  destruct (Nat.leb_spec steps (s_window_length sp)) as [Hle|_]; [lia|].
  replace (length calib_motors =? length detector_fields)%nat with true
    by (symmetry; apply Nat.eqb_eq; exact Hm).
  replace (length (default_calib_fields calib_fields calib_motors)
           =? length detector_fields)%nat with true
    by (symmetry; apply Nat.eqb_eq; exact Hf).
  cbn [negb].
  unfold calibration_centroid_scan.
  rewrite default_calib_fields_idem.
  replace (length calib_motors
           =? length (default_calib_fields calib_fields calib_motors))%nat with true
    by (symmetry; apply Nat.eqb_eq; congruence).
  cbn [negb].
  change (duplicate_keyword scan_keywords _) with false. cbv iota.
  unfold Plan.emit, Plan.call_. simpl.
  unfold scan_request, scan_kwargs in *.
  change (Py.tuple_times 0 (@nil PyObj)) with (@nil PyObj).
  rewrite Hscan. reflexivity.
Qed.

Lemma X1_stops_after_the_scan_witness :
  run_from ex_engine 0 ex_pipeline
  = ([EvMsg (Log Debug "Beginning calibration scan");
      EvCall (scan_request ex_detector ["det_x"; "det_y"] ex_motor ["delay"]
                [ex_m1; ex_m2] ["m1"; "m2"] (qz 0) (qz 10) 11 ex_scan_params)],
     inl TypeError).
Proof.
  apply (X1_calibration_scan_stops_after_the_scan ex_detector ["det_x"; "det_y"]
           ex_motor ["delay"] [ex_m1; ex_m2] ["m1"; "m2"] (qz 0) (qz 10) 11
           ex_scan_params ex_engine 0 ex_raw_scan).
  - simpl. lia.
  - reflexivity.
  - reflexivity.
  - reflexivity.
Defined.

(** X3: a step count that does not exceed the filter window is refused with
    [ValueError] before any request, even when all the counts agree. *)
Theorem X3_short_scan_is_refused (detector : Detector)
  (detector_fields : list string) (motor : Motor) (motor_fields : list string)
  (calib_motors : list Motor) (calib_fields : list string) (start stop : Qc)
  (steps : nat) (sp : ScanParams) (eng : engine) (n : nat) :
  (steps <= s_window_length sp)%nat ->
  run_from eng n
    (calibration_scan detector detector_fields motor motor_fields calib_motors
       calib_fields start stop steps sp)
  = ([], inl ValueError).
Proof.
  intros Hle. unfold calibration_scan.
  destruct (Nat.leb_spec steps (s_window_length sp)) as [_|Hgt]; [reflexivity|lia].
Qed.

Lemma X3_short_scan_witness :
  run_from ex_engine 0
    (calibration_scan ex_detector ["det_x"; "det_y"] ex_motor ["delay"]
       [ex_m1; ex_m2] ["m1"; "m2"] (qz 0) (qz 10) 9 ex_scan_params)
  = ([], inl ValueError).
Proof.
  apply X3_short_scan_is_refused. simpl. lia.
Defined.

(** ** [calibrate_motor]: the confirmation *)

Lemma lower_ascii_is_y (c : ascii) :
  PyStr.lower_ascii c = "y"%char <-> c = "y"%char \/ c = "Y"%char.
Proof.
  destruct c as [[] [] [] [] [] [] [] []]; vm_compute;
    (split; [intros H; try discriminate H; auto
            |intros [H|H]; try discriminate H; reflexivity]).
Qed.

Lemma lower_is_y (s : string) :
  PyStr.lower s = "y" <-> s = "y" \/ s = "Y".
Proof.
  destruct s as [|c [|c' s']]; cbn [PyStr.lower].
  - split; [discriminate|intros [H|H]; discriminate].
  - split.
    + intros H. injection H as H. apply lower_ascii_is_y in H.
      destruct H as [-> | ->]; [left|right]; reflexivity.
    + intros [H|H]; injection H as ->; reflexivity.
  - split; [discriminate|intros [H|H]; discriminate].
Qed.

Lemma confirm_events_only (motor : Motor) (confirm_overwrite : bool)
  (eng : engine) (n : nat) :
  forallb is_confirm_event (trace eng n (confirm motor confirm_overwrite)) = true.
Proof.
  unfold confirm, ask, Plan.call_, Plan.emit. simpl. rewrite trace_Call. simpl.
  destruct (eng MotorConfig (ReadConfiguration motor) n) as [e|cfg]; simpl; [reflexivity|].
  destruct (cfg_calib cfg && cfg_motors cfg); simpl; [|reflexivity].
  rewrite trace_Emit. simpl.
  destruct confirm_overwrite; simpl; [|reflexivity].
  rewrite trace_Call. simpl.
  destruct (eng string (Input prompt) (S n)) as [e|response]; simpl.
  - reflexivity.
  - destruct (String.eqb (PyStr.lower response) "y"); reflexivity.
Qed.

(** X2: with the name [return_to_start] unbound, as the module leaves it,
    no run of [calibrate_motor] reads a position, scans, moves or commits:
    its events are those of the confirmation alone, and once the
    confirmation lets the plan go on the run ends with [NameError]. *)
Theorem X2_unbound_name_ends_every_run (short_uid : string -> string)
  (pipeline : plan (DataFrame * DataFrame * list Qc * list Qc))
  (motor : Motor) (calib_motors : list Motor) (confirm_overwrite : bool)
  (eng : engine) :
  forallb is_confirm_event
    (trace eng 0
       (calibrate_motor short_uid None pipeline motor calib_motors confirm_overwrite))
  = true /\
  (outcome eng 0 (confirm motor confirm_overwrite) = ok true ->
   outcome eng 0
     (calibrate_motor short_uid None pipeline motor calib_motors confirm_overwrite)
   = inl NameError).
Proof.
  unfold calibrate_motor. rewrite trace_bind, outcome_bind. split.
  - rewrite forallb_app, confirm_events_only. simpl.
    destruct (outcome eng 0 (confirm motor confirm_overwrite)) as [e|[|]]; reflexivity.
  - intros H. rewrite H. reflexivity.
Qed.

(** X4: when a calibration is loaded and confirmation is asked for, the
    plan goes on exactly when the response is "y" or "Y" (any other text,
    "yes" included, cancels), and it then runs the scan-and-commit part
    from the third request on. *)
Theorem X4_only_y_confirms (short_uid : string -> string)
  (return_to_start : option bool)
  (pipeline : plan (DataFrame * DataFrame * list Qc * list Qc))
  (motor : Motor) (calib_motors : list Motor) (eng : engine) (cfg : MotorConfig)
  (response : string) :
  eng _ (ReadConfiguration motor) 0%nat = ok cfg ->
  cfg_calib cfg && cfg_motors cfg = true ->
  eng _ (Input prompt) 1%nat = ok response ->
  (outcome eng 0 (confirm motor true) = ok true <->
   response = "y" \/ response = "Y") /\
  (response = "y" \/ response = "Y" ->
   run eng (calibrate_motor short_uid return_to_start pipeline motor calib_motors true)
   = ([EvCall (ReadConfiguration motor); EvMsg overwrite_warning;
       EvCall (Input prompt); EvMsg (Log Debug "Overwrite confirmed.")]
        ++ trace eng 2
             (scan_and_commit short_uid return_to_start pipeline motor calib_motors),
      outcome eng 2
        (scan_and_commit short_uid return_to_start pipeline motor calib_motors))).
Proof.
  intros Hcfg Hprior Hresp.
  assert (Hrun : run_from eng 0 (confirm motor true)
                 = ([EvCall (ReadConfiguration motor); EvMsg overwrite_warning;
                     EvCall (Input prompt)]
                      ++ [EvMsg (Log (if accepts response then Debug else Info)
                                     (if accepts response then "Overwrite confirmed."
                                      else "\Calibration cancelled."))],
                    ok (accepts response))).
  { unfold confirm, ask, Plan.call_, Plan.emit, accepts. simpl.
    rewrite Hcfg. simpl. rewrite Hprior. simpl. rewrite Hresp. simpl.
    destruct (String.eqb (PyStr.lower response) "y"); reflexivity. }
  assert (Hacc : accepts response = true <-> response = "y" \/ response = "Y").
  { unfold accepts. rewrite String.eqb_eq. apply lower_is_y. }
  split.
  - unfold outcome. rewrite Hrun. simpl. rewrite <- Hacc.
    split; [intros H; injection H as H; exact H|intros ->; reflexivity].
  - intros Hy. apply Hacc in Hy.
    assert (Htr : trace eng 0 (confirm motor true)
                  = [EvCall (ReadConfiguration motor); EvMsg overwrite_warning;
                     EvCall (Input prompt); EvMsg (Log Debug "Overwrite confirmed.")])
      by (unfold trace; rewrite Hrun, Hy; reflexivity).
    assert (Hout : outcome eng 0 (confirm motor true) = ok true)
      by (unfold outcome; rewrite Hrun, Hy; reflexivity).
    unfold run, calibrate_motor. rewrite run_bind, Hout, Htr. reflexivity.
Qed.

(** an engine on which a calibration is loaded and the user answers "Y" *)
Lemma X4_only_y_confirms_witness :
  outcome
    (fun X c =>
       match c in call X return nat -> result X with
       | ReadConfiguration _ => fun _ => ok (mkConfig true true)
       | Input _ => fun _ => ok "Y"
       | Position m => fun _ => ok (qz 0)
       | CentroidScan _ => fun _ => ok ex_raw_scan
       | MeasureAverage _ _ _ => fun n => ok (ex_reads n)
       | WalkToPixel _ => fun _ => ok tt
       | Configure _ _ => fun _ => ok tt
       end) 0 (confirm ex_motor true)
  = ok true.
Proof.
  eapply (X4_only_y_confirms (fun s => s) None (Raise TypeError) ex_motor [ex_m1]).
  - reflexivity.
  - reflexivity.
  - reflexivity.
  - right. reflexivity.
Defined.

(** X5: without a loaded calibration, or with [confirm_overwrite] off, no
    prompt is made: the confirmation is the configuration read (and the
    warning, when a calibration is loaded) and the plan goes on. *)
Theorem X5_no_prompt_without_need (motor : Motor) (confirm_overwrite : bool)
  (eng : engine) (n : nat) (cfg : MotorConfig) :
  eng _ (ReadConfiguration motor) n = ok cfg ->
  cfg_calib cfg && cfg_motors cfg = false \/ confirm_overwrite = false ->
  run_from eng n (confirm motor confirm_overwrite)
  = (EvCall (ReadConfiguration motor)
       :: (if cfg_calib cfg && cfg_motors cfg then [EvMsg overwrite_warning] else []),
     ok true).
Proof.
  intros Hcfg Hcase.
  unfold confirm, Plan.call_, Plan.emit. simpl. rewrite Hcfg. simpl.
  destruct (cfg_calib cfg && cfg_motors cfg); simpl; [|reflexivity].
  destruct Hcase as [H|H]; [discriminate|rewrite H; reflexivity].
Qed.

Lemma X5_no_prompt_witness :
  run_from ex_engine_declining 0 (confirm ex_motor false)
  = ([EvCall (ReadConfiguration ex_motor); EvMsg overwrite_warning], ok true).
Proof.
  apply (X5_no_prompt_without_need ex_motor false ex_engine_declining 0
           (mkConfig true true)).
  - reflexivity.
  - right. reflexivity.
Defined.

(** ** [build_calibration_df]: errors *)

(** X6: when the numbers of detector columns and of ["_pre"] columns
    differ, [build_calibration_df] raises [ValueError] before it builds
    anything: on the store no object is made or changed. *)
Theorem X6_table_count_mismatch (df_scan : DataFrame) (scaling start_positions : list Qc)
  (detector : Detector) (h : heap) (l_scan : nat) :
  length (discover_detector_fields df_scan detector)
  <> length (discover_calib_fields df_scan) ->
  h !! l_scan = Some df_scan ->
  build_calibration_df df_scan scaling start_positions detector = raise ValueError /\
  build_calibration_df_h l_scan scaling start_positions detector h
  = (raise ValueError, h).
Proof.
  intros Hne Hs. split.
  - unfold build_calibration_df.
    destruct (Nat.eqb_spec (length (discover_detector_fields df_scan detector))
                           (length (discover_calib_fields df_scan))); [contradiction|].
    reflexivity.
  - unfold build_calibration_df_h. rewrite (heap_bind_read _ _ _ _ Hs).
    destruct (Nat.eqb_spec (length (discover_detector_fields df_scan detector))
                           (length (discover_calib_fields df_scan))); [contradiction|].
    reflexivity.
Qed.

Lemma X6_table_count_mismatch_witness :
  build_calibration_df (add_column ex_scan "det_bg" (map qz [1; 2; 3]%Z))
    [qz 2; qz 3] [qz 1000; qz 2000] ex_detector
  = raise ValueError.
Proof.
  destruct (X6_table_count_mismatch
              (add_column ex_scan "det_bg" (map qz [1; 2; 3]%Z))
              [qz 2; qz 3] [qz 1000; qz 2000] ex_detector
              [add_column ex_scan "det_bg" (map qz [1; 2; 3]%Z)] 0) as [H _].
  - simpl. lia.
  - reflexivity.
  - exact H.
Defined.

Lemma zip4_cons_inv {A B C D} (a : list A) (b : list B) (c : list C) (d : list D) :
  a <> [] -> b <> [] -> c <> [] -> d <> [] ->
  exists x y z w rest, zip4 a b c d = (x, y, z, w) :: rest /\ List.In w d.
Proof.
  destruct a as [|x a], b as [|y b], c as [|z c], d as [|w d]; try congruence.
  intros _ _ _ _. exists x, y, z, w, (zip4 a b c d). split; [reflexivity|left; reflexivity].
Qed.

(** X7: a scan table without rows cannot be calibrated: when there is at
    least one channel to treat, reading the first detector value (line 461)
    raises [IndexError]. *)
Theorem X7_table_without_rows (df_scan : DataFrame) (scaling start_positions : list Qc)
  (detector : Detector) :
  Forall (fun cs => snd cs = []) (df_cols df_scan) ->
  length (discover_detector_fields df_scan detector)
  = length (discover_calib_fields df_scan) ->
  discover_detector_fields df_scan detector <> [] ->
  scaling <> [] ->
  start_positions <> [] ->
  build_calibration_df df_scan scaling start_positions detector = raise IndexError.
Proof.
  intros Hempty Hlen Hd Hsc Hst.
  assert (Hc : discover_calib_fields df_scan <> []).
  { intros Heq. rewrite Heq in Hlen. apply Hd. apply length_zero_iff_nil. exact Hlen. }
  destruct (zip4_cons_inv _ _ _ _ Hsc Hst Hc Hd)
    as (scale & start & cfld & dfld & rest & Hzip & Hin).
  unfold build_calibration_df. rewrite Hlen, Nat.eqb_refl. cbn [negb].
  rewrite Hzip. cbn [correction_loop]. unfold correction_step.
  apply detector_field_column in Hin.
  destruct (assoc_of_column dfld (df_cols df_scan) Hin) as (s & Hs & Hmem).
  rewrite List.Forall_forall in Hempty. specialize (Hempty _ Hmem). simpl in Hempty.
  subst s. unfold DF.getitem. rewrite Hs. reflexivity.
Qed.

Lemma X7_table_without_rows_witness :
  build_calibration_df
    (mkDF [] [("det_x", []); ("delay", []); ("m1_pre", [])])
    [qz 2] [qz 1000] ex_detector
  = raise IndexError.
Proof.
  apply X7_table_without_rows.
  - repeat constructor.
  - reflexivity.
  - discriminate.
  - discriminate.
  - discriminate.
Defined.

(** ** [build_calibration_df]: the table as a whole *)

Lemma set_assoc_fresh (c : string) (s : Series) (cols : list (string * Series)) :
  ~ List.In c (map fst cols) -> DF.set_assoc c s cols = cols ++ [(c, s)].
Proof.
  induction cols as [|[c' s'] cols IH]; simpl; intros Hnin; [reflexivity|].
  destruct (String.eqb c c') eqn:E.
  - apply String.eqb_eq in E. exfalso. apply Hnin. left. symmetry. exact E.
  - rewrite IH; [reflexivity|]. intros H. apply Hnin. right. exact H.
Qed.

Lemma channel_columns_labels (df_scan : DataFrame) (ch : Qc * Qc * string * string) :
  chan_ok df_scan ch ->
  map fst (channel_columns df_scan ch)
  = [(chan_cfld ch ++ "_post_abs")%string; (chan_cfld ch ++ "_post_rel")%string].
Proof.
  destruct ch as [[[scale start] cfld] dfld]. intros (d & d0 & pre & Hd & Hd0 & Hpre).
  unfold channel_columns. rewrite Hd, Hpre.
  destruct d as [|x d]; [discriminate|]. reflexivity.
Qed.

Lemma correction_loop_columns (df_scan : DataFrame)
  (chs : list (Qc * Qc * string * string)) :
  Forall (chan_ok df_scan) chs ->
  List.NoDup (map chan_cfld chs) ->
  forall acc,
    (forall ch label, List.In ch chs ->
       List.In label (map fst (channel_columns df_scan ch)) ->
       ~ List.In label (DF.columns acc)) ->
    correction_loop df_scan acc chs
    = ok (mkDF (df_index acc)
               (df_cols acc ++ flat_map (channel_columns df_scan) chs)).
Proof.
  induction chs as [|ch chs IH]; intros Hok Hnd acc Hfresh.
  - simpl. rewrite app_nil_r. destruct acc; reflexivity.
  - inversion Hok as [|? ? Hch Hrest]; subst.
    simpl in Hnd. inversion Hnd as [|? ? Hnotin Hnd']; subst.
    pose proof (channel_columns_labels _ _ Hch) as Hlabels.
    destruct ch as [[[scale start] cfld] dfld].
    destruct Hch as (d & d0 & pre & Hd & Hd0 & Hpre).
    cbn [correction_loop].
    rewrite (correction_step_ok _ _ _ _ _ _ _ _ _ Hd Hd0 Hpre). cbn [rbind ok].
    assert (Hcols : channel_columns df_scan (scale, start, cfld, dfld)
                    = [((cfld ++ "_post_abs")%string, abs_correction start scale d d0);
                       ((cfld ++ "_post_rel")%string,
                        DF.sub (abs_correction start scale d d0) pre)]).
    { unfold channel_columns. rewrite Hd, Hpre.
      destruct d as [|x d]; [discriminate|]. injection Hd0 as ->. reflexivity. }
    assert (Habs : ~ List.In (cfld ++ "_post_abs")%string (DF.columns acc)).
    { apply (Hfresh (scale, start, cfld, dfld)); [left; reflexivity|].
      rewrite Hlabels. left. reflexivity. }
    assert (Hrel : ~ List.In (cfld ++ "_post_rel")%string (DF.columns acc)).
    { apply (Hfresh (scale, start, cfld, dfld)); [left; reflexivity|].
      rewrite Hlabels. right. left. reflexivity. }
    set (acc1 := DF.setitem (DF.setitem acc _ _) _ _).
    assert (Hacc1 : acc1 = mkDF (df_index acc)
                      (df_cols acc ++ channel_columns df_scan (scale, start, cfld, dfld))).
    { rewrite Hcols. unfold acc1, DF.setitem. cbn [df_index df_cols].
      rewrite (set_assoc_fresh _ _ (df_cols acc)) by exact Habs.
      rewrite set_assoc_fresh.
      - rewrite <- app_assoc. reflexivity.
      - rewrite map_app. simpl. intros Hin. apply in_app_or in Hin.
        destruct Hin as [Hin|[Heq|[]]]; [exact (Hrel Hin)|].
        exact (label_abs_rel _ _ Heq). }
    rewrite IH; [|exact Hrest|exact Hnd'|].
    + rewrite Hacc1. cbn [df_index df_cols flat_map]. rewrite <- app_assoc. reflexivity.
    + intros ch' label Hin' Hlab. rewrite Hacc1. unfold DF.columns. cbn [df_cols].
      rewrite map_app. intros Hin. apply in_app_or in Hin.
      destruct Hin as [Hin|Hin].
      * exact (Hfresh ch' label (or_intror Hin') Hlab Hin).
      * assert (Hok' : chan_ok df_scan ch')
          by (rewrite List.Forall_forall in Hrest; apply Hrest; exact Hin').
        rewrite (channel_columns_labels _ _ Hok') in Hlab.
        rewrite Hlabels in Hin. unfold chan_cfld in Hin at 1 2. simpl in Hin.
        assert (Hne : cfld <> chan_cfld ch').
        { intros Heq. apply Hnotin. unfold chan_cfld at 1. simpl. rewrite Heq.
          apply (in_map chan_cfld). exact Hin'. }
        destruct Hlab as [<-|[<-|[]]]; destruct Hin as [Heq|[Heq|[]]].
        -- apply label_abs_inj in Heq. congruence.
        -- exact (label_abs_rel _ _ (eq_sym Heq)).
        -- exact (label_abs_rel _ _ Heq).
        -- apply label_rel_inj in Heq. congruence.
Qed.

Lemma select_cols_well_formed (df : DataFrame) (labels : list string)
  (cs : list (string * Series)) :
  Forall (fun c => length (snd c) = length (df_index df)) (df_cols df) ->
  DF.select_cols df labels = ok cs ->
  Forall (fun c => length (snd c) = length (df_index df)) cs.
Proof.
  intros Hall. revert cs. induction labels as [|c labels IH]; intros cs H; simpl in H.
  - injection H as <-. constructor.
  - unfold DF.getitem in H. destruct (DF.assoc c (df_cols df)) as [s|] eqn:Hs;
      [|discriminate]. simpl in H.
    destruct (DF.select_cols df labels) as [e|tl]; [discriminate|]. simpl in H.
    injection H as <-. constructor; [|apply IH; reflexivity].
    simpl. clear -Hall Hs. induction (df_cols df) as [|[c' s'] cols IHc]; [discriminate|].
    simpl in Hs. inversion Hall; subst.
    destruct (String.eqb c c'); [injection Hs as <-; assumption|auto].
Qed.

Lemma channel_columns_well_formed (df_scan : DataFrame)
  (ch : Qc * Qc * string * string) :
  Forall (fun c => length (snd c) = length (df_index df_scan)) (df_cols df_scan) ->
  Forall (fun c => length (snd c) = length (df_index df_scan))
         (channel_columns df_scan ch).
Proof.
  intros Hall. destruct ch as [[[scale start] cfld] dfld]. unfold channel_columns.
  assert (Hget : forall c s, DF.getitem df_scan c = inr s ->
                             length s = length (df_index df_scan)).
  { intros c s H. unfold DF.getitem in H.
    destruct (DF.assoc c (df_cols df_scan)) as [s'|] eqn:Hs; [|discriminate].
    injection H as <-. clear -Hall Hs.
    induction (df_cols df_scan) as [|[c' s0] cols IHc]; [discriminate|].
    simpl in Hs. inversion Hall; subst.
    destruct (String.eqb c c'); [injection Hs as <-; assumption|auto]. }
  destruct (DF.getitem df_scan dfld) as [e|[|d0 d]] eqn:Hd; try constructor.
  destruct (DF.getitem df_scan (cfld ++ "_pre")) as [e|pre] eqn:Hpre; try constructor.
  - cbn [snd]. rewrite length_abs_correction. exact (Hget _ _ Hd).
  - constructor; [|constructor]. cbn [snd].
    rewrite length_series_sub.
    + rewrite length_abs_correction. exact (Hget _ _ Hd).
    + rewrite length_abs_correction, (Hget _ _ Hd), (Hget _ _ Hpre). reflexivity.
Qed.

Lemma length_zip4 {A B C D} (a : list A) (b : list B) (c : list C) (d : list D) :
  length (zip4 a b c d)
  = Nat.min (Nat.min (length a) (length b)) (Nat.min (length c) (length d)).
Proof.
  revert b c d. induction a as [|x a IH]; intros [|y b] [|z c] [|w d]; simpl;
    try reflexivity; try lia.
  rewrite IH. reflexivity.
Qed.

(** X8: on a scan table with at least one row, equally many detector and
    ["_pre"] columns and distinct channel names, [build_calibration_df]
    returns, over the index of the scan, the motor columns in the order of
    the scan followed by the absolute and the relative correction of each
    treated channel, channel by channel; the channels treated are as many
    as the shortest of the scale list, the start list and the channel list;
    and every column of the result spans the index. *)
Theorem X8_table_in_closed_form (df_scan : DataFrame) (scaling start_positions : list Qc)
  (detector : Detector) :
  well_formed df_scan ->
  length (discover_detector_fields df_scan detector)
  = length (discover_calib_fields df_scan) ->
  List.NoDup (discover_calib_fields df_scan) ->
  exists motor_columns,
    DF.select_cols df_scan
      (discover_motor_fields df_scan (discover_detector_fields df_scan detector))
    = ok motor_columns /\
    map fst motor_columns
    = discover_motor_fields df_scan (discover_detector_fields df_scan detector) /\
    build_calibration_df df_scan scaling start_positions detector
    = ok (mkDF (df_index df_scan)
               (motor_columns ++
                flat_map (channel_columns df_scan)
                         (table_channels df_scan scaling start_positions detector))) /\
    length (flat_map (channel_columns df_scan)
                     (table_channels df_scan scaling start_positions detector))
    = (2 * Nat.min (Nat.min (length scaling) (length start_positions))
                   (length (discover_calib_fields df_scan)))%nat /\
    well_formed
      (mkDF (df_index df_scan)
            (motor_columns ++
             flat_map (channel_columns df_scan)
                      (table_channels df_scan scaling start_positions detector))).
Proof.
  intros Hwf Hlen Hnd.
  pose proof (channels_ok df_scan detector scaling start_positions Hwf) as Hok.
  fold (table_channels df_scan scaling start_positions detector) in Hok.
  set (chs := table_channels df_scan scaling start_positions detector) in *.
  destruct (select_cols_ok df_scan
              (discover_motor_fields df_scan (discover_detector_fields df_scan detector)))
    as (cs & Hcs & Hmap).
  { intros c Hc. unfold discover_motor_fields in Hc. apply filter_In in Hc. tauto. }
  exists cs. split; [exact Hcs|]. split; [exact Hmap|].
  assert (Hloop : correction_loop df_scan (DF.empty (df_index df_scan)) chs
                  = ok (mkDF (df_index df_scan) (flat_map (channel_columns df_scan) chs))).
  { rewrite (correction_loop_columns df_scan chs Hok).
    - reflexivity.
    - apply zip4_nodup_third. exact Hnd.
    - intros ch label _ _ []. }
  split; [|split].
  - unfold build_calibration_df. rewrite Hlen, Nat.eqb_refl. cbn [negb].
    fold (table_channels df_scan scaling start_positions detector). fold chs.
    rewrite Hloop. cbn [rbind ok]. unfold DF.select. rewrite Hcs. reflexivity.
  - assert (Hflat : length (flat_map (channel_columns df_scan) chs)
                    = (2 * length chs)%nat).
    { clear -Hok. induction chs as [|ch chs IH]; [reflexivity|].
      inversion Hok; subst. simpl. rewrite length_app, IH by assumption.
      pose proof (channel_columns_labels _ _ H1) as Hl.
      apply (f_equal (@length string)) in Hl. rewrite length_map in Hl.
      rewrite Hl. simpl. lia. }
    rewrite Hflat. unfold chs, table_channels. rewrite length_zip4, Hlen. lia.
  - destruct Hwf as [Hne Hall]. split; [exact Hne|]. simpl.
    apply Forall_app. split.
    + eapply select_cols_well_formed; eauto.
    + clear -Hall. induction chs as [|ch chs IH]; simpl; [constructor|].
      apply Forall_app. split; [apply channel_columns_well_formed; exact Hall|exact IH].
Qed.

Lemma X8_table_in_closed_form_witness :
  exists motor_columns,
    build_calibration_df ex_scan [qz 2; qz 3] [qz 1000; qz 2000] ex_detector
    = ok (mkDF (df_index ex_scan)
               (motor_columns ++
                flat_map (channel_columns ex_scan)
                  (table_channels ex_scan [qz 2; qz 3] [qz 1000; qz 2000] ex_detector))).
Proof.
  destruct (X8_table_in_closed_form ex_scan [qz 2; qz 3] [qz 1000; qz 2000] ex_detector)
    as (cs & _ & _ & H & _).
  - exact ex_scan_well_formed.
  - reflexivity.
  - vm_compute. repeat constructor; simpl; intuition discriminate.
  - exists cs. exact H.
Defined.

(** ** [calibration_centroid_scan]: marking and rediscovery *)

Lemma append_endswith (p suf : string) : PyStr.endswith (p ++ suf) suf = true.
Proof.
  induction p as [|c p IH].
  - rewrite append_empty_l. destruct suf; cbn [PyStr.endswith];
      rewrite String.eqb_refl; reflexivity.
  - rewrite append_cons. cbn [PyStr.endswith]. rewrite IH. apply orb_true_r.
Qed.

Lemma discover_marked (calib_fields : list string) (cols : list (string * Series))
  (idx : list Qc) :
  (forall c, List.In c (map fst cols) -> mem_str c calib_fields = false ->
             is_pre c = false) ->
  discover_calib_fields (mark_pre calib_fields (mkDF idx cols))
  = List.filter (fun c => mem_str c calib_fields) (map fst cols).
Proof.
  unfold discover_calib_fields, mark_pre, DF.columns. cbn [df_cols df_index].
  induction cols as [|[c s] cols IH]; intros Hstray; [reflexivity|].
  cbn [map List.filter fst].
  destruct (mem_str c calib_fields) eqn:Hmem.
  - unfold is_pre at 1. rewrite append_endswith. cbn [map].
    rewrite drop_last4_append by reflexivity.
    f_equal. apply IH. intros c' Hc'. apply Hstray. right. exact Hc'.
  - rewrite (Hstray c (or_introl eq_refl) Hmem).
    apply IH. intros c' Hc'. apply Hstray. right. exact Hc'.
Qed.

(** X9: when no other column of the scan ends in ["_pre"],
    [calibration_centroid_scan] returns the scan with the calibration
    columns marked, and the channels that [detector_scaling_walk] and
    [build_calibration_df] find in it are exactly the calibration fields
    that occur as columns, in the order of the columns of the scan (not in
    the order of the field list). *)
Theorem X9_marked_columns_are_rediscovered (detector : Detector) (motor : Motor)
  (calib_motors : list Motor) (start stop : Qc) (steps : nat)
  (calib_fields : list string) (args : list PyObj) (kwargs : list (string * PyObj))
  (eng : engine) (n : nat) (df : DataFrame) :
  length calib_motors = length (default_calib_fields calib_fields calib_motors) ->
  duplicate_keyword scan_keywords kwargs = false ->
  eng _ (centroid_request detector motor calib_motors start stop steps calib_fields
           kwargs) n = ok df ->
  (forall c, List.In c (DF.columns df) ->
             mem_str c (default_calib_fields calib_fields calib_motors) = false ->
             is_pre c = false) ->
  run_from eng n
    (calibration_centroid_scan detector motor calib_motors start stop steps
       calib_fields args kwargs)
  = ([EvCall (centroid_request detector motor calib_motors start stop steps
                calib_fields kwargs)],
     ok (mark_pre (default_calib_fields calib_fields calib_motors) df)) /\
  discover_calib_fields (mark_pre (default_calib_fields calib_fields calib_motors) df)
  = List.filter (fun c => mem_str c (default_calib_fields calib_fields calib_motors))
                (DF.columns df).
Proof.
  intros Hlen Hkw Hscan Hstray. split.
  - unfold calibration_centroid_scan. rewrite Hlen, Nat.eqb_refl, Hkw. cbn [negb].
    unfold Plan.call_. cbn [Plan.bind]. unfold centroid_request in Hscan.
    change (Py.tuple_times 0 args) with (@nil PyObj).
    simpl. rewrite Hscan. reflexivity.
  - destruct df as [idx cols]. apply discover_marked. exact Hstray.
Qed.

Lemma X9_marked_columns_witness :
  discover_calib_fields (mark_pre (default_calib_fields [] [ex_m1; ex_m2]) ex_raw_scan)
  = List.filter (fun c => mem_str c (default_calib_fields [] [ex_m1; ex_m2]))
                (DF.columns ex_raw_scan).
Proof.
  destruct (X9_marked_columns_are_rediscovered ex_detector ex_motor [ex_m1; ex_m2]
              (qz 0) (qz 10) 11 [] [PyNum (qz 1)] [] ex_engine 0 ex_raw_scan)
    as [_ H].
  - reflexivity.
  - reflexivity.
  - reflexivity.
  - intros c Hc Hmem. simpl in Hc.
    destruct Hc as [<-|[<-|[<-|[<-|[<-|[]]]]]]; try reflexivity; discriminate Hmem.
  - exact H.
Defined.

(** ** [detector_scaling_walk]: the passive devices of a walk *)

Lemma remove_present (x : device) (l : list device) :
  List.In x l ->
  exists r,
    Py.remove x l = ok r /\
    length l = S (length r) /\
    (forall d, d <> x -> (List.In d l <-> List.In d r)) /\
    (List.NoDup l -> ~ List.In x r).
Proof.
  induction l as [|y l IH]; intros Hin; [contradiction|].
  cbn [Py.remove]. destruct (bool_decide (x = y)) eqn:E.
  - apply bool_decide_eq_true in E. subst y. exists l.
    split; [reflexivity|]. split; [reflexivity|]. split.
    + intros d Hd. simpl. split; [intros [H|H]; [congruence|exact H]|auto].
    + intros Hnd. inversion Hnd; assumption.
  - apply bool_decide_eq_false in E.
    destruct Hin as [Heq|Hin]; [congruence|].
    destruct (IH Hin) as (r & Hr & Hlen & Hmem & Hnd).
    exists (y :: r). rewrite Hr. split; [reflexivity|].
    split; [simpl; lia|]. split.
    + intros d Hd. simpl. rewrite (Hmem d Hd). tauto.
    + intros Hnd'. inversion Hnd'; subst. intros [Heq|Hx]; [congruence|].
      exact (Hnd H2 Hx).
Qed.

Lemma remove_absent (x : device) (l : list device) :
  ~ List.In x l -> Py.remove x l = raise ValueError.
Proof.
  induction l as [|y l IH]; intros Hnin; [reflexivity|].
  cbn [Py.remove]. destruct (bool_decide (x = y)) eqn:E.
  - apply bool_decide_eq_true in E. exfalso. apply Hnin. left. symmetry. exact E.
  - rewrite IH; [reflexivity|]. intros H. apply Hnin. right. exact H.
Qed.



(** ** [calibrate_motor]: the snapshot *)

Lemma dict_set_keys_old (d : list (Motor * Qc)) (m : Motor) (pos : Qc) :
  List.In m (dict_keys d) -> dict_keys (dict_set d m pos) = dict_keys d.
Proof.
  induction d as [|[m' p'] d IH]; intros Hin; [contradiction|].
  cbn [dict_set]. destruct (bool_decide (m = m')) eqn:E; [reflexivity|].
  apply bool_decide_eq_false in E.
  destruct Hin as [Heq|Hin]; [simpl in Heq; congruence|].
  unfold dict_keys in *. simpl. rewrite IH by exact Hin. reflexivity.
Qed.

Lemma dict_set_keys_new (d : list (Motor * Qc)) (m : Motor) (pos : Qc) :
  ~ List.In m (dict_keys d) -> dict_keys (dict_set d m pos) = dict_keys d ++ [m].
Proof.
  induction d as [|[m' p'] d IH]; intros Hnin; [reflexivity|].
  cbn [dict_set]. destruct (bool_decide (m = m')) eqn:E.
  - apply bool_decide_eq_true in E. exfalso. apply Hnin. left. symmetry. exact E.
  - unfold dict_keys in *. simpl. rewrite IH; [reflexivity|].
    intros Hin. apply Hnin. right. exact Hin.
Qed.

Lemma snapshot_keys (eng : engine) (ms : list Motor) :
  forall n d init,
    outcome eng n (snapshot ms d) = ok init ->
    List.NoDup (dict_keys d) ->
    List.NoDup (dict_keys init) /\
    (forall m, List.In m (dict_keys init) <-> List.In m (dict_keys d) \/ List.In m ms) /\
    (List.NoDup (dict_keys d ++ ms) -> dict_keys init = dict_keys d ++ ms).
Proof.
  induction ms as [|m0 ms IH]; intros n d init Hrun Hnd.
  - simpl in Hrun. injection Hrun as <-. split; [exact Hnd|]. split.
    + intros m. simpl. tauto.
    + intros _. rewrite app_nil_r. reflexivity.
  - cbn [snapshot] in Hrun. unfold Plan.call_ in Hrun. simpl in Hrun.
    rewrite outcome_Call in Hrun.
    destruct (eng Qc (Position m0) n) as [e|pos]; simpl in Hrun; [discriminate|].
    destruct (in_dec Motor_eq_dec m0 (dict_keys d)) as [Hold|Hnew].
    + pose proof (dict_set_keys_old d m0 pos Hold) as Hkeys.
      assert (Hnd1 : List.NoDup (dict_keys (dict_set d m0 pos)))
        by (rewrite Hkeys; exact Hnd).
      destruct (IH _ _ _ Hrun Hnd1) as (Hn & Hmem & Hord).
      split; [exact Hn|]. split.
      * intros m. rewrite Hmem, Hkeys. simpl. split; [tauto|].
        intros [H|[<-|H]]; tauto.
      * intros Hall. exfalso. apply NoDup_remove_2 in Hall. apply Hall.
        apply in_or_app. left. exact Hold.
    + pose proof (dict_set_keys_new d m0 pos Hnew) as Hkeys.
      assert (Hnd1 : List.NoDup (dict_keys (dict_set d m0 pos))).
      { rewrite Hkeys. apply List.NoDup_app.
        - exact Hnd.
        - repeat constructor. intros [].
        - intros x Hx [<-|[]]. contradiction. }
      destruct (IH _ _ _ Hrun Hnd1) as (Hn & Hmem & Hord).
      split; [exact Hn|]. split.
      * intros m. rewrite Hmem, Hkeys, in_app_iff. simpl. tauto.
      * intros Hall. rewrite Hord; rewrite Hkeys, <- app_assoc;
          [reflexivity|exact Hall].
Qed.

Lemma set_targets_restore (init : list (Motor * Qc)) (group : string) :
  set_targets (restore_events init group) = dict_keys init.
Proof.
  unfold restore_events, dict_keys.
  induction init as [|[m pos] init IH]; [reflexivity|].
  simpl. rewrite IH. reflexivity.
Qed.



Lemma snapshot_reads_only (eng : engine) (ms : list Motor) :
  forall n d, forallb is_position_read (trace eng n (snapshot ms d)) = true.
Proof.
  induction ms as [|m ms IH]; intros n d; [reflexivity|].
  cbn [snapshot]. unfold Plan.call_. simpl. rewrite trace_Call. simpl.
  destruct (eng Qc (Position m) n) as [e|pos]; simpl; [reflexivity|apply IH].
Qed.

(** X12: when the position of a motor cannot be read for the snapshot, the
    run ends with that exception after position reads alone: the pipeline
    is not started and nothing is moved or committed. *)
Theorem X12_failed_snapshot_ends_the_run (short_uid : string -> string)
  (pipeline : plan (DataFrame * DataFrame * list Qc * list Qc))
  (motor : Motor) (calib_motors : list Motor) (eng : engine) (n : nat) (e : exn) :
  outcome eng n (snapshot (motor :: calib_motors) []) = inl e ->
  run_from eng n (scan_and_commit short_uid (Some true) pipeline motor calib_motors)
  = (trace eng n (snapshot (motor :: calib_motors) []), inl e) /\
  forallb is_position_read
    (trace eng n (scan_and_commit short_uid (Some true) pipeline motor calib_motors))
  = true.
Proof.
  intros Hsnap.
  assert (Hrun : run_from eng n
                   (scan_and_commit short_uid (Some true) pipeline motor calib_motors)
                 = (trace eng n (snapshot (motor :: calib_motors) []), inl e)).
  { unfold scan_and_commit. rewrite run_bind, Hsnap. reflexivity. }
  split; [exact Hrun|].
  unfold trace at 1. rewrite Hrun. apply snapshot_reads_only.
Qed.

Lemma X12_failed_snapshot_witness :
  outcome (fun X c n => inl LimitError) 0
    (scan_and_commit (fun s => s) (Some true) ex_pipeline ex_motor [ex_m1])
  = inl LimitError.
Proof.
  destruct (X12_failed_snapshot_ends_the_run (fun s => s) ex_pipeline ex_motor [ex_m1]
              (fun X c n => inl LimitError) 0 LimitError) as [H _].
  - reflexivity.
  - unfold outcome. rewrite H. reflexivity.
Defined.



(** ** [detector_scaling_walk]: the outcomes of one channel *)

Section WalkOutcomes.

Variable df_scan : DataFrame.
Variable detector : Detector.
Variable prm : WalkParams.
Variable system : list device.
Variable eng : engine.

Variables (i n : nat) (dfld cfld : string) (cmotor : Motor).
Variable rest : list (string * string * Motor).
Variables scaling start_positions : list Qc.

Variables (inp_system : list device) (reads1 reads2 : list (string * Qc)).
Variables (motor_start dfld_start motor_end dfld_end target : Qc).
Variables (col : Series) (idx_max : nat).
Variables (gradient : option Qc) (first_step tolerance : Qc) (max_steps : nat).
Variable e : exn.

Local Abbreviation measure := (measure_request detector prm system).
Local Abbreviation walk :=
  (walk_request detector prm cmotor inp_system dfld cfld target gradient
     first_step tolerance max_steps).

Hypothesis Hremove : Py.remove (DevMotor cmotor) system = ok inp_system.
Hypothesis Hreads1 : eng _ measure n = ok reads1.
Hypothesis Hmotor_start : Py.dict_get reads1 cfld = ok motor_start.
Hypothesis Hdfld_start : Py.dict_get reads1 dfld = ok dfld_start.
Hypothesis Hcol : DF.getitem df_scan dfld = ok col.
Hypothesis Hidx : farthest_row col dfld_start = ok idx_max.
Hypothesis Htarget : DF.iloc_at df_scan idx_max dfld = ok target.
Hypothesis Hgradient : Py.index (p_gradients prm) i = ok gradient.
Hypothesis Hfirst_step : Py.index (p_first_step prm) i = ok first_step.
Hypothesis Htolerance : Py.index (p_tolerance prm) i = ok tolerance.
Hypothesis Hmax_steps : Py.index (p_max_steps prm) i = ok max_steps.
Hypothesis Hkwargs : duplicate_keyword walk_keywords (p_kwargs prm) = false.


(** X16: when the walk of a channel succeeds, the plan reads the averaged
    values once more and, the detector value having changed, appends the
    scale [(motor_end - motor_start) / (dfld_end - dfld_start)] and the
    motor value read before the walk, and goes on with the remaining
    channels; no warning is logged and no position is read. *)
Theorem X16_successful_walk_step :
  eng _ walk (S n) = ok tt ->
  eng _ measure (S (S n)) = ok reads2 ->
  Py.dict_get reads2 cfld = ok motor_end ->
  Py.dict_get reads2 dfld = ok dfld_end ->
  Py.is_zero (dfld_end - dfld_start)%Qc = false ->
  trace eng n
    (walk_loop df_scan detector prm system i ((dfld, cfld, cmotor) :: rest)
       scaling start_positions)
  = [EvCall measure; EvMsg (Log Debug "Beginning walk"); EvCall walk; EvCall measure]
    ++ trace eng (n + 3)
         (walk_loop df_scan detector prm system (S i) rest
            (scaling ++ [recovered_scale motor_start dfld_start motor_end dfld_end])
            (start_positions ++ [motor_start])) /\
  outcome eng n
    (walk_loop df_scan detector prm system i ((dfld, cfld, cmotor) :: rest)
       scaling start_positions)
  = outcome eng (n + 3)
      (walk_loop df_scan detector prm system (S i) rest
         (scaling ++ [recovered_scale motor_start dfld_start motor_end dfld_end])
         (start_positions ++ [motor_start])).
Proof.
  intros Hwalk Hreads2 Hmotor_end Hdfld_end Hsignal.
  assert (Hrun : run_from eng n
                   (walk_channel df_scan detector prm system i dfld cfld cmotor
                      scaling start_positions)
                 = ([EvCall measure; EvMsg (Log Debug "Beginning walk");
                     EvCall walk; EvCall measure],
                    ok (scaling ++ [recovered_scale motor_start dfld_start
                                      motor_end dfld_end],
                        start_positions ++ [motor_start]))).
  { unfold walk_channel, walk_begin. rewrite Hremove. simpl.
    fold measure. rewrite Hreads1. simpl.
    rewrite Hmotor_start, Hdfld_start, Hcol. simpl.
    rewrite Hidx. simpl.
    unfold walk_attempt. rewrite Htarget. simpl.
    rewrite Hgradient, Hfirst_step, Htolerance, Hmax_steps. simpl.
    rewrite Hkwargs. simpl. fold walk. rewrite Hwalk. simpl.
    unfold walk_finish. simpl. fold measure. rewrite Hreads2. simpl.
    rewrite Hmotor_end, Hdfld_end. simpl.
    unfold Py.div. rewrite Hsignal. reflexivity. }
  assert (Htr : trace eng n
                  (walk_channel df_scan detector prm system i dfld cfld cmotor
                     scaling start_positions)
                = [EvCall measure; EvMsg (Log Debug "Beginning walk");
                   EvCall walk; EvCall measure])
    by (unfold trace; rewrite Hrun; reflexivity).
  assert (Hout : outcome eng n
                   (walk_channel df_scan detector prm system i dfld cfld cmotor
                      scaling start_positions)
                 = ok (scaling ++ [recovered_scale motor_start dfld_start
                                     motor_end dfld_end],
                       start_positions ++ [motor_start]))
    by (unfold outcome; rewrite Hrun; reflexivity).
  cbn [walk_loop]. rewrite trace_bind, outcome_bind, Htr, Hout.
  unfold ok. cbv beta iota. cbn [fst snd]. simpl calls_in.
  split; reflexivity.
Qed.

End WalkOutcomes.


Lemma X16_successful_walk_witness :
  outcome ex_engine 0
    (walk_loop ex_scan ex_detector ex_walk_params ex_system 0
       [("det_x", "m1", ex_m1); ("det_y", "m2", ex_m2)] [] [])
  = outcome ex_engine 3
      (walk_loop ex_scan ex_detector ex_walk_params ex_system 1
         [("det_y", "m2", ex_m2)]
         [recovered_scale (qz 100) (qz 0) (qz 106) (qz 2)] [qz 100]).
Proof.
  apply (X16_successful_walk_step ex_scan ex_detector ex_walk_params ex_system
           ex_engine 0 0 "det_x" "m1" ex_m1 [("det_y", "m2", ex_m2)] [] []
           [DevMotor ex_m2] (ex_reads 0) (ex_reads 2)
           (qz 100) (qz 0) (qz 106) (qz 2) (qz 15)
           (map qz [10; 12; 15]%Z) 2 None (qz 1) (qz 1) 5);
    try reflexivity; vm_compute; reflexivity.
Defined.

(** ** [detector_scaling_walk]: what every run keeps *)

Lemma events_bind {A B} (P : event -> bool) (eng : engine) (p : plan A)
  (f : A -> plan B) (n : nat) :
  forallb P (trace eng n p) = true ->
  (forall a m, forallb P (trace eng m (f a)) = true) ->
  forallb P (trace eng n (Plan.bind p f)) = true.
Proof.
  intros Hp Hf. rewrite trace_bind, forallb_app, Hp. simpl.
  destruct (outcome eng n p); [reflexivity|apply Hf].
Qed.

Lemma events_lift {A} (P : event -> bool) (eng : engine) (r : result A) (n : nat) :
  forallb P (trace eng n (Plan.lift r)) = true.
Proof. destruct r; reflexivity. Qed.

Section WalkInvariants.

Variable df_scan : DataFrame.
Variable detector : Detector.
Variable prm : WalkParams.
Variable system : list device.
Variable eng : engine.

Lemma try_block_events (i : nat) (dfld cfld : string) (cmotor : Motor)
  (inp_system : list device) (idx_max : nat) (n : nat) :
  forallb is_walk_event
    (trace eng n
       (Plan.try_except
          (walk_attempt df_scan detector prm i dfld cfld cmotor inp_system idx_max)
          (walk_handler cmotor))) = true.
Proof.
  unfold walk_attempt.
  destruct (DF.iloc_at df_scan idx_max dfld) as [e|target]; simpl;
    [destruct e; try reflexivity; simpl; rewrite trace_Call; simpl;
     destruct (eng Qc (Position cmotor) n); reflexivity|].
  rewrite trace_Emit. simpl.
  destruct (Py.index (p_gradients prm) i) as [e|g]; simpl;
    [destruct e; try reflexivity; simpl; rewrite trace_Call; simpl;
     destruct (eng Qc (Position cmotor) n); reflexivity|].
  destruct (Py.index (p_first_step prm) i) as [e|fs]; simpl;
    [destruct e; try reflexivity; simpl; rewrite trace_Call; simpl;
     destruct (eng Qc (Position cmotor) n); reflexivity|].
  destruct (Py.index (p_tolerance prm) i) as [e|tol]; simpl;
    [destruct e; try reflexivity; simpl; rewrite trace_Call; simpl;
     destruct (eng Qc (Position cmotor) n); reflexivity|].
  destruct (Py.index (p_max_steps prm) i) as [e|ms]; simpl;
    [destruct e; try reflexivity; simpl; rewrite trace_Call; simpl;
     destruct (eng Qc (Position cmotor) n); reflexivity|].
  destruct (duplicate_keyword walk_keywords (p_kwargs prm)); simpl; [reflexivity|].
  rewrite trace_Call. simpl.
  destruct (eng unit _ n) as [e|[]]; simpl; [|reflexivity].
  destruct e; try reflexivity; simpl; rewrite trace_Call; simpl;
    destruct (eng Qc (Position cmotor) (S n)); reflexivity.
Qed.

Lemma walk_begin_events (i : nat) (dfld cfld : string) (cmotor : Motor) (n : nat) :
  forallb is_walk_event
    (trace eng n (walk_begin df_scan detector prm system i dfld cfld cmotor)) = true.
Proof.
  unfold walk_begin.
  apply events_bind; [apply events_lift|]. intros inp_system m.
  apply events_bind.
  { unfold Plan.call_. rewrite trace_Call. simpl.
    destruct (eng _ _ m); reflexivity. }
  intros reads m1.
  apply events_bind; [apply events_lift|]. intros motor_start m2.
  apply events_bind; [apply events_lift|]. intros dfld_start m3.
  apply events_bind; [apply events_lift|]. intros col m4.
  apply events_bind; [apply events_lift|]. intros idx_max m5.
  apply events_bind; [apply try_block_events|]. intros [] m6. reflexivity.
Qed.

Lemma walk_finish_events (dfld cfld : string) (motor_start dfld_start : Qc)
  (scaling start_positions : list Qc) (n : nat) :
  forallb is_walk_event
    (trace eng n
       (walk_finish detector prm system dfld cfld motor_start dfld_start
          scaling start_positions)) = true.
Proof.
  unfold walk_finish.
  apply events_bind.
  { unfold Plan.call_. rewrite trace_Call. simpl.
    destruct (eng _ _ n); reflexivity. }
  intros reads m1.
  apply events_bind; [apply events_lift|]. intros motor_end m2.
  apply events_bind; [apply events_lift|]. intros dfld_end m3.
  apply events_bind; [apply events_lift|]. intros scale m4. reflexivity.
Qed.

Lemma walk_finish_extends (dfld cfld : string) (motor_start dfld_start : Qc)
  (scaling start_positions : list Qc) (n : nat) (acc : list Qc * list Qc) :
  outcome eng n
    (walk_finish detector prm system dfld cfld motor_start dfld_start
       scaling start_positions) = ok acc ->
  exists scale, acc = (scaling ++ [scale], start_positions ++ [motor_start]).
Proof.
  unfold walk_finish, Plan.call_. simpl. rewrite outcome_Call.
  destruct (eng _ _ n) as [e|reads]; simpl; [discriminate|].
  destruct (Py.dict_get reads cfld) as [e|motor_end]; simpl; [discriminate|].
  destruct (Py.dict_get reads dfld) as [e|dfld_end]; simpl; [discriminate|].
  destruct (Py.div _ _) as [e|scale]; simpl; [discriminate|].
  intros H. injection H as <-. exists scale. reflexivity.
Qed.

Lemma walk_loop_invariants (chans : list (string * string * Motor)) :
  forall i n scaling start_positions,
    forallb is_walk_event
      (trace eng n (walk_loop df_scan detector prm system i chans
                      scaling start_positions)) = true /\
    (forall sc st,
        outcome eng n (walk_loop df_scan detector prm system i chans
                         scaling start_positions) = ok (sc, st) ->
        length sc = (length scaling + length chans)%nat /\
        length st = (length start_positions + length chans)%nat /\
        firstn (length scaling) sc = scaling /\
        firstn (length start_positions) st = start_positions).
Proof.
  induction chans as [|[[dfld cfld] cmotor] chans IH];
    intros i n scaling start_positions.
  - split; [reflexivity|]. intros sc st H. simpl in H. injection H as <- <-.
    rewrite !Nat.add_0_r, !firstn_all. repeat split.
  - cbn [walk_loop]. split.
    + apply events_bind.
      * unfold walk_channel. apply events_bind; [apply walk_begin_events|].
        intros starts m. apply walk_finish_events.
      * intros acc m. apply IH.
    + intros sc st. rewrite outcome_bind.
      destruct (outcome eng n (walk_channel _ _ _ _ i dfld cfld cmotor _ _))
        as [e|acc] eqn:Hch; [discriminate|].
      unfold walk_channel in Hch. rewrite outcome_bind in Hch.
      destruct (outcome eng n (walk_begin _ _ _ _ i dfld cfld cmotor))
        as [e|starts]; [discriminate|].
      apply walk_finish_extends in Hch. destruct Hch as [scale ->].
      cbn [fst snd]. intros Hrest.
      pose proof (proj2 (IH _ _ _ _) _ _ Hrest) as Hlen.
      destruct Hlen as (H1 & H2 & H3 & H4).
      rewrite length_app in H1, H2, H3, H4. simpl in *.
      split; [lia|]. split; [lia|]. split.
      * apply (f_equal (firstn (length scaling))) in H3.
        rewrite firstn_firstn in H3.
        replace (Nat.min (length scaling) (length scaling + 1)) with (length scaling)
          in H3 by lia.
        rewrite H3, firstn_app, Nat.sub_diag, firstn_all. simpl.
        apply app_nil_r.
      * apply (f_equal (firstn (length start_positions))) in H4.
        rewrite firstn_firstn in H4.
        replace (Nat.min (length start_positions) (length start_positions + 1))
          with (length start_positions) in H4 by lia.
        rewrite H4, firstn_app, Nat.sub_diag, firstn_all. simpl.
        apply app_nil_r.
Qed.

End WalkInvariants.

Lemma length_zip3 {A B C} (a : list A) (b : list B) (c : list C) :
  length (zip3 a b c) = Nat.min (Nat.min (length a) (length b)) (length c).
Proof.
  revert b c. induction a as [|x a IH]; intros [|y b] [|z c]; simpl;
    try reflexivity; try lia.
  rewrite IH. reflexivity.
Qed.

(** X17: whatever the engine answers, [detector_scaling_walk] asks only for
    averaged reads, walks and motor positions (it never scans, never sets a
    motor itself and never commits), and when it returns, the list of
    scales and the list of start positions have the same length: one entry
    per detector field, as far as there are calibration motors. *)
Theorem X17_walk_requests_and_result (df_scan : DataFrame) (detector : Detector)
  (calib_motors : list Motor) (prm : WalkParams) (eng : engine) (n : nat) :
  forallb is_walk_event
    (trace eng n (detector_scaling_walk df_scan detector calib_motors prm)) = true /\
  (forall scaling start_positions,
      outcome eng n (detector_scaling_walk df_scan detector calib_motors prm)
      = ok (scaling, start_positions) ->
      length scaling = length start_positions /\
      length scaling
      = Nat.min (length (discover_detector_fields df_scan detector))
                (length calib_motors)).
Proof.
  unfold detector_scaling_walk.
  destruct (Nat.eqb_spec (length (discover_detector_fields df_scan detector))
                         (length (discover_calib_fields df_scan))) as [Heq|Hne];
    cbn [negb].
  - destruct (walk_loop_invariants df_scan detector prm
                (p_system prm ++ map DevMotor calib_motors) eng
                (zip3 (discover_detector_fields df_scan detector)
                      (discover_calib_fields df_scan) calib_motors) 0 n [] [])
      as [Hev Hlen].
    split; [exact Hev|]. intros sc st H.
    destruct (Hlen sc st H) as (H1 & H2 & _). simpl in H1, H2.
    rewrite length_zip3 in H1, H2. split; lia.
  - split; [reflexivity|]. intros sc st H. discriminate H.
Qed.

(** ** [detector_scaling_walk]: the arguments handed to the walk *)

Lemma index_error {A} (l : list A) (i : nat) (e : exn) :
  Py.index l i = inl e -> e = IndexError.
Proof.
  unfold Py.index. destruct (nth_error l i); [discriminate|].
  intros H. injection H as <-. reflexivity.
Qed.

Lemma iloc_at_error (df : DataFrame) (i : nat) (c : string) (e : exn) :
  DF.iloc_at df i c = inl e -> e = IndexError \/ e = KeyError.
Proof.
  unfold DF.iloc_at, DF.getitem, DF.iloc.
  destruct (i <? length (df_index df))%nat.
  - destruct (DF.assoc c (df_cols df)) as [s|]; simpl.
    + destruct (nth_error s i); [discriminate|].
      intros H. injection H as <-. left. reflexivity.
    + intros H. injection H as <-. right. reflexivity.
  - intros H. injection H as <-. left. reflexivity.
Qed.

Lemma repeated_keyword_try_block (df_scan : DataFrame) (detector : Detector)
  (prm : WalkParams) (i : nat) (dfld cfld : string) (cmotor : Motor)
  (inp_system : list device) (idx_max : nat) (eng : engine) (n : nat) :
  duplicate_keyword walk_keywords (p_kwargs prm) = true ->
  (exists e,
      outcome eng n
        (Plan.try_except
           (walk_attempt df_scan detector prm i dfld cfld cmotor inp_system idx_max)
           (walk_handler cmotor)) = inl e) /\
  existsb is_walk_request
    (trace eng n
       (Plan.try_except
          (walk_attempt df_scan detector prm i dfld cfld cmotor inp_system idx_max)
          (walk_handler cmotor))) = false.
Proof.
  intros Hkw. unfold walk_attempt.
  destruct (DF.iloc_at df_scan idx_max dfld) as [e|target] eqn:H0; simpl.
  { destruct (iloc_at_error _ _ _ _ H0) as [-> | ->]; split; eauto. }
  rewrite trace_Emit, outcome_Emit. simpl.
  destruct (Py.index (p_gradients prm) i) as [e|g] eqn:H1; simpl.
  { rewrite (index_error _ _ _ H1). split; eauto. }
  destruct (Py.index (p_first_step prm) i) as [e|fs] eqn:H2; simpl.
  { rewrite (index_error _ _ _ H2). split; eauto. }
  destruct (Py.index (p_tolerance prm) i) as [e|tol] eqn:H3; simpl.
  { rewrite (index_error _ _ _ H3). split; eauto. }
  destruct (Py.index (p_max_steps prm) i) as [e|ms] eqn:H4; simpl.
  { rewrite (index_error _ _ _ H4). split; eauto. }
  rewrite Hkw. simpl. split; eauto.
Qed.

(** X15: when [**kwargs] repeats a keyword that the call of lines 375-386
    gives itself (["gradient"], ["tolerance"], ...), no walk is ever
    requested, and the plan cannot return unless there is no channel to
    treat: the first channel ends the run with an exception that the two
    handlers do not catch. *)
Theorem X15_repeated_keyword_stops_the_walks (df_scan : DataFrame)
  (detector : Detector) (calib_motors : list Motor) (prm : WalkParams)
  (eng : engine) (n : nat) :
  duplicate_keyword walk_keywords (p_kwargs prm) = true ->
  existsb is_walk_request
    (trace eng n (detector_scaling_walk df_scan detector calib_motors prm)) = false /\
  (forall scaling start_positions,
      outcome eng n (detector_scaling_walk df_scan detector calib_motors prm)
      = ok (scaling, start_positions) ->
      scaling = [] /\ start_positions = []).
Proof.
  intros Hkw. unfold detector_scaling_walk.
  destruct (negb _); [split; [reflexivity|discriminate]|].
  set (system := p_system prm ++ map DevMotor calib_motors).
  destruct (zip3 _ _ calib_motors) as [|[[dfld cfld] cmotor] chans].
  { split; [reflexivity|]. intros sc st H. injection H as <- <-. split; reflexivity. }
  cbn [walk_loop]. unfold walk_channel, walk_begin.
  destruct (Py.remove (DevMotor cmotor) system) as [e|inp]; simpl;
    [split; [reflexivity|discriminate]|].
  rewrite trace_Call, outcome_Call.
  destruct (eng _ _ n) as [e|reads]; simpl; [split; [reflexivity|discriminate]|].
  destruct (Py.dict_get reads cfld) as [e|ms]; simpl;
    [split; [reflexivity|discriminate]|].
  destruct (Py.dict_get reads dfld) as [e|ds]; simpl;
    [split; [reflexivity|discriminate]|].
  destruct (DF.getitem df_scan dfld) as [e|col]; simpl;
    [split; [reflexivity|discriminate]|].
  destruct (farthest_row col ds) as [e|idx]; simpl;
    [split; [reflexivity|discriminate]|].
  destruct (repeated_keyword_try_block df_scan detector prm 0 dfld cfld cmotor inp idx
              eng (S n) Hkw) as [[e He] Hno].
  set (blk := Plan.try_except
                (walk_attempt df_scan detector prm 0 dfld cfld cmotor inp idx)
                (walk_handler cmotor)) in *.
  set (begin := Plan.bind blk (fun _ => Ret (ms, ds))).
  set (chan := Plan.bind begin _).
  assert (Hbegin_o : outcome eng (S n) begin = inl e)
    by (unfold begin; rewrite outcome_bind, He; reflexivity).
  assert (Hbegin_t : trace eng (S n) begin = trace eng (S n) blk)
    by (unfold begin; rewrite trace_bind, He; apply app_nil_r).
  assert (Hchan_o : outcome eng (S n) chan = inl e)
    by (unfold chan; rewrite outcome_bind, Hbegin_o; reflexivity).
  assert (Hchan_t : trace eng (S n) chan = trace eng (S n) blk)
    by (unfold chan; rewrite trace_bind, Hbegin_o, Hbegin_t; apply app_nil_r).
  rewrite trace_bind, outcome_bind, Hchan_o, Hchan_t, app_nil_r.
  split; [exact Hno|discriminate].
Qed.

Lemma X15_repeated_keyword_witness :
  existsb is_walk_request
    (trace ex_engine 0
       (detector_scaling_walk ex_scan ex_detector [ex_m1; ex_m2]
          (mkWalkParams [qz 1; qz 1] None PyNone [qz 1; qz 1] [5; 5] []
             [None; None] [] [("gradient", PyNum (qz 1))])))
  = false.
Proof.
  apply X15_repeated_keyword_stops_the_walks. reflexivity.
Defined.

Lemma tuple_times_nil {A} (k : nat) : Py.tuple_times k (@nil A) = [].
Proof. unfold Py.tuple_times. induction k as [|k IH]; [reflexivity|exact IH]. Qed.

Lemma index_same_length {A} (l l' : list A) (i : nat) :
  length l = length l' ->
  (exists x x', Py.index l i = ok x /\ Py.index l' i = ok x') \/
  (Py.index l i = raise IndexError /\ Py.index l' i = raise IndexError).
Proof.
  intros Hlen. unfold Py.index.
  destruct (nth_error l i) as [x|] eqn:Hx.
  - assert (Hi : (i < length l')%nat)
      by (rewrite <- Hlen; apply nth_error_Some; congruence).
    apply nth_error_Some in Hi.
    destruct (nth_error l' i) as [x'|]; [|congruence].
    left. exists x, x'. split; reflexivity.
  - assert (Hi : (length l' <= i)%nat)
      by (rewrite <- Hlen; apply nth_error_None; exact Hx).
    apply nth_error_None in Hi. rewrite Hi. right. split; reflexivity.
Qed.

Section IterationCap.

Variable df_scan : DataFrame.
Variable detector : Detector.
Variable prm : WalkParams.
Variable max_steps' : list nat.
Variable system : list device.
Variable eng : engine.

Hypothesis Hargs : p_args prm = [].
Hypothesis Hlen : length (p_max_steps prm) = length max_steps'.

Lemma walk_attempt_cap (i : nat) (dfld cfld : string) (cmotor : Motor)
  (inp_system : list device) (idx_max : nat) :
  walk_attempt df_scan detector (with_max_steps prm max_steps') i dfld cfld cmotor
    inp_system idx_max
  = walk_attempt df_scan detector prm i dfld cfld cmotor inp_system idx_max.
Proof.
  unfold walk_attempt, average. cbn [with_max_steps p_gradients p_first_step
    p_tolerance p_max_steps p_kwargs p_args p_filters p_average].
  destruct (DF.iloc_at df_scan idx_max dfld); simpl; [reflexivity|].
  f_equal.
  destruct (Py.index (p_gradients prm) i); simpl; [reflexivity|].
  destruct (Py.index (p_first_step prm) i); simpl; [reflexivity|].
  destruct (Py.index (p_tolerance prm) i); simpl; [reflexivity|].
  destruct (index_same_length (p_max_steps prm) max_steps' i Hlen)
    as [(x & x' & -> & ->) | [-> ->]]; simpl; [|reflexivity].
  rewrite Hargs, !tuple_times_nil. reflexivity.
Qed.

Lemma run_walk_channel_cap (i : nat) (dfld cfld : string) (cmotor : Motor)
  (scaling start_positions : list Qc) (n : nat) :
  run_from eng n
    (walk_channel df_scan detector (with_max_steps prm max_steps') system i
       dfld cfld cmotor scaling start_positions)
  = run_from eng n
      (walk_channel df_scan detector prm system i dfld cfld cmotor
         scaling start_positions).
Proof.
  unfold walk_channel, walk_begin.
  destruct (Py.remove (DevMotor cmotor) system) as [e|inp]; simpl; [reflexivity|].
  change (average (with_max_steps prm max_steps')) with (average prm).
  destruct (eng _ (MeasureAverage (DevDetector detector :: system) (average prm)
                     (p_filters prm)) n) as [e|reads]; simpl; [reflexivity|].
  destruct (Py.dict_get reads cfld) as [e|ms]; simpl; [reflexivity|].
  destruct (Py.dict_get reads dfld) as [e|ds]; simpl; [reflexivity|].
  destruct (DF.getitem df_scan dfld) as [e|col]; simpl; [reflexivity|].
  destruct (farthest_row col ds) as [e|idx]; simpl; [reflexivity|].
  rewrite walk_attempt_cap. reflexivity.
Qed.

Lemma run_walk_loop_cap (chans : list (string * string * Motor)) :
  forall i n scaling start_positions,
    run_from eng n
      (walk_loop df_scan detector (with_max_steps prm max_steps') system i chans
         scaling start_positions)
    = run_from eng n
        (walk_loop df_scan detector prm system i chans scaling start_positions).
Proof.
  induction chans as [|[[dfld cfld] cmotor] chans IH];
    intros i n scaling start_positions; [reflexivity|].
  cbn [walk_loop]. rewrite !run_bind.
  unfold outcome, trace. rewrite run_walk_channel_cap.
  destruct (run_from eng n (walk_channel df_scan detector prm system i dfld cfld
                              cmotor scaling start_positions)) as [tr [e|acc]];
    cbn [fst snd]; [reflexivity|].
  rewrite IH. reflexivity.
Qed.

End IterationCap.

(** X18: without extra positional arguments the cap [max_steps] does not
    reach the walk: line 385 multiplies it with the empty [*args], so every
    walk request carries the empty tuple, and two calls that differ in the
    values of [max_steps] only run alike against every engine. *)
Theorem X18_iteration_cap_is_not_passed (df_scan : DataFrame) (detector : Detector)
  (calib_motors : list Motor) (prm : WalkParams) (max_steps' : list nat)
  (eng : engine) (n : nat) :
  p_args prm = [] ->
  length (p_max_steps prm) = length max_steps' ->
  run_from eng n
    (detector_scaling_walk df_scan detector calib_motors
       (with_max_steps prm max_steps'))
  = run_from eng n (detector_scaling_walk df_scan detector calib_motors prm).
Proof.
  intros Hargs Hlen. unfold detector_scaling_walk.
  destruct (negb _); [reflexivity|].
  change (p_system (with_max_steps prm max_steps')) with (p_system prm).
  apply run_walk_loop_cap; assumption.
Qed.

Lemma X18_iteration_cap_witness :
  run_from ex_engine 0
    (detector_scaling_walk ex_scan ex_detector [ex_m1; ex_m2]
       (with_max_steps ex_walk_params [1; 100]))
  = run_from ex_engine 0
      (detector_scaling_walk ex_scan ex_detector [ex_m1; ex_m2] ex_walk_params).
Proof.
  apply X18_iteration_cap_is_not_passed; reflexivity.
Defined.

(** [calibration_centroid_scan] never hands its extra positional arguments
    to the scan: line 267 multiplies them with [False], so the request
    carries an empty [return_to_start] and is the same whatever [*args]
    holds. *)
Lemma scan_drops_positional_arguments (detector : Detector) (motor : Motor)
  (calib_motors : list Motor) (start stop : Qc) (steps : nat)
  (calib_fields : list string) (args args' : list PyObj)
  (kwargs : list (string * PyObj)) :
  calibration_centroid_scan detector motor calib_motors start stop steps
    calib_fields args kwargs
  = calibration_centroid_scan detector motor calib_motors start stop steps
      calib_fields args' kwargs.
Proof. reflexivity. Qed.

(** ** [detector_scaling_walk]: missing reads and empty scans *)

Lemma dict_get_absent (d : list (string * Qc)) (key : string) :
  ~ List.In key (map fst d) -> Py.dict_get d key = raise KeyError.
Proof.
  induction d as [|[k v] d IH]; intros Hnin; [reflexivity|].
  cbn [Py.dict_get]. destruct (String.eqb key k) eqn:E.
  - apply String.eqb_eq in E. exfalso. apply Hnin. left. symmetry. exact E.
  - apply IH. intros H. apply Hnin. right. exact H.
Qed.

(** X20: when the averaged reads before the walk lack the calibration
    field of a channel (the label of its ["_pre"] column without the
    suffix) or its detector field, the run ends with [KeyError] after that
    one read: no walk is requested. *)
Theorem X20_missing_read_aborts (df_scan : DataFrame) (detector : Detector)
  (prm : WalkParams) (system inp_system : list device) (eng : engine) (i n : nat)
  (dfld cfld : string) (cmotor : Motor) (rest : list (string * string * Motor))
  (scaling start_positions : list Qc) (reads : list (string * Qc)) :
  Py.remove (DevMotor cmotor) system = ok inp_system ->
  eng _ (measure_request detector prm system) n = ok reads ->
  ~ List.In cfld (map fst reads) \/ ~ List.In dfld (map fst reads) ->
  run_from eng n
    (walk_loop df_scan detector prm system i ((dfld, cfld, cmotor) :: rest)
       scaling start_positions)
  = ([EvCall (measure_request detector prm system)], inl KeyError).
Proof.
  intros Hremove Hreads Hmiss.
  cbn [walk_loop]. unfold walk_channel, walk_begin. rewrite Hremove. simpl.
  fold (measure_request detector prm system). rewrite Hreads. simpl.
  destruct (Py.dict_get reads cfld) as [e|ms] eqn:Hc; simpl.
  - destruct Hmiss as [H|H].
    + rewrite (dict_get_absent _ _ H) in Hc. injection Hc as <-. reflexivity.
    + clear -Hc. revert Hc. induction reads as [|[k v] reads IH]; simpl.
      * intros H. injection H as <-. reflexivity.
      * destruct (String.eqb cfld k); [discriminate|exact IH].
  - destruct Hmiss as [H|H].
    + rewrite (dict_get_absent _ _ H) in Hc. discriminate.
    + rewrite (dict_get_absent _ _ H). reflexivity.
Qed.

Lemma X20_missing_read_witness :
  run_from ex_engine 0
    (walk_loop ex_scan ex_detector ex_walk_params ex_system 0
       [("det_x", "m3", ex_m1)] [] [])
  = ([EvCall (measure_request ex_detector ex_walk_params ex_system)], inl KeyError).
Proof.
  apply (X20_missing_read_aborts ex_scan ex_detector ex_walk_params ex_system
           [DevMotor ex_m2] ex_engine 0 0 "det_x" "m3" ex_m1 [] [] [] (ex_reads 0)).
  - reflexivity.
  - reflexivity.
  - left. simpl. intuition discriminate.
Defined.

(** X21: on a scan table without rows the search of line 369 has nothing
    to choose from: the first channel ends the run with [ValueError] after
    its first read, before any walk. *)
Theorem X21_walk_on_empty_scan (df_scan : DataFrame) (detector : Detector)
  (prm : WalkParams) (system inp_system : list device) (eng : engine) (i n : nat)
  (dfld cfld : string) (cmotor : Motor) (rest : list (string * string * Motor))
  (scaling start_positions : list Qc) (reads : list (string * Qc))
  (motor_start dfld_start : Qc) :
  Py.remove (DevMotor cmotor) system = ok inp_system ->
  eng _ (measure_request detector prm system) n = ok reads ->
  Py.dict_get reads cfld = ok motor_start ->
  Py.dict_get reads dfld = ok dfld_start ->
  DF.getitem df_scan dfld = ok [] ->
  run_from eng n
    (walk_loop df_scan detector prm system i ((dfld, cfld, cmotor) :: rest)
       scaling start_positions)
  = ([EvCall (measure_request detector prm system)], inl ValueError).
Proof.
  intros Hremove Hreads Hms Hds Hcol.
  cbn [walk_loop]. unfold walk_channel, walk_begin. rewrite Hremove. simpl.
  fold (measure_request detector prm system). rewrite Hreads. simpl.
  rewrite Hms, Hds, Hcol. reflexivity.
Qed.

Lemma X21_walk_on_empty_scan_witness :
  run_from ex_engine 0
    (walk_loop (mkDF [] [("det_x", []); ("delay", []); ("m1_pre", [])])
       ex_detector ex_walk_params ex_system 0 [("det_x", "m1", ex_m1)] [] [])
  = ([EvCall (measure_request ex_detector ex_walk_params ex_system)], inl ValueError).
Proof.
  apply (X21_walk_on_empty_scan _ ex_detector ex_walk_params ex_system
           [DevMotor ex_m2] ex_engine 0 0 "det_x" "m1" ex_m1 [] [] [] (ex_reads 0)
           (qz 100) (qz 0)); reflexivity.
Defined.
